(** * NextEVI voice SDK: conversation state machine and transport channel

    A shallow embedding of the session-state orchestration layer of the SDK:
    - [voiceReducer] and the [wsEvents] handlers of [VoiceProvider]
      (components/VoiceProvider.tsx),
    - the [WebSocketManager] (utils/websocket.ts): close handling,
      reconnection with exponential backoff, frame routing,
    - the part of the [AudioManager] (utils/audio.ts) that owns the
      synthesized-audio queue, and its two worklet processors: the
      playback processor that drains the queue and the capture processor
      that cuts the microphone signal into 16-bit chunks,
    - what the hooks (hooks/useVoice.ts) derive from the message log.

    Mutable objects are records threaded explicitly; a callback registered
    on another object becomes a list of emitted signals that the owner of
    the callbacks consumes in order; clock and random reads are inputs. *)

From Stdlib Require Import QArith Qcanon Lqa.
From stdpp Require Import base list strings pretty numbers.

Set Default Proof Using "Type".
Set Warnings "-register-all".
Open Scope Z_scope.

(** ** JavaScript values *)

Module JS.

(** A property typed [T | null | undefined]. *)
Inductive nullable (A : Type) : Type :=
| undefined
| null
| value (a : A).
Arguments undefined {A}.
Arguments null {A}.
Arguments value {A} a.

(** JSON numbers, kept exact: no property below depends on the rounding
    to doubles. *)
Definition number : Type := Qc.

Definition number_of_Z (z : Z) : number := Q2Qc (inject_Z z).

(** [!!n] for a number: zero is the only falsy JSON number. *)
Definition truthy_number (n : number) : bool := negb (Qc_eq_bool n 0%Qc).

(** [!!s] for a string. *)
Definition truthy_string (s : string) : bool := negb (String.eqb s "").

(** A string is a string of bytes: the UTF-8 encoding of the JavaScript
    string, as the string literals of this file are.  Two strings are equal
    when their encodings are.

    [String.prototype.trim] removes white space and line terminators.  On
    the ASCII range these are TAB, LF, VT, FF, CR and SPACE. *)
Definition is_space (c : Ascii.ascii) : bool :=
  match Ascii.nat_of_ascii c with
  | 9%nat | 10%nat | 11%nat | 12%nat | 13%nat | 32%nat => true
  | _ => false
  end.

Definition byte (c : Ascii.ascii) : N := Ascii.N_of_ascii c.

(** Beyond ASCII, one character of two bytes: U+00A0, encoded [C2 A0]. *)
Definition is_space2 (c d : Ascii.ascii) : bool :=
  (byte c =? 194)%N && (byte d =? 160)%N.

(** And the characters of three bytes: U+1680 [E1 9A 80], U+2000 to U+200A
    [E2 80 80] to [E2 80 8A], U+2028 [E2 80 A8], U+2029 [E2 80 A9], U+202F
    [E2 80 AF], U+205F [E2 81 9F], U+3000 [E3 80 80] and U+FEFF
    [EF BB BF]. *)
Definition is_space3 (c d f : Ascii.ascii) : bool :=
  (byte c =? 225)%N && (byte d =? 154)%N && (byte f =? 128)%N
  || (byte c =? 226)%N && (byte d =? 128)%N &&
       ((128 <=? byte f)%N && (byte f <=? 138)%N
        || (byte f =? 168)%N || (byte f =? 169)%N || (byte f =? 175)%N)
  || (byte c =? 226)%N && (byte d =? 129)%N && (byte f =? 159)%N
  || (byte c =? 227)%N && (byte d =? 128)%N && (byte f =? 128)%N
  || (byte c =? 239)%N && (byte d =? 187)%N && (byte f =? 191)%N.

Section Strip.
(** The white space of two and of three bytes, as its bytes come first in
    the string. *)
Context (two : Ascii.ascii → Ascii.ascii → bool).
Context (three : Ascii.ascii → Ascii.ascii → Ascii.ascii → bool).

Fixpoint strip (s : string) : string :=
  match s with
  | EmptyString => EmptyString
  | String c s1 =>
      if is_space c then strip s1 else
      match s1 with
      | String d s2 =>
          if two c d then strip s2 else
          match s2 with
          | String f s3 => if three c d f then strip s3 else s
          | EmptyString => s
          end
      | EmptyString => s
      end
  end.
End Strip.

Definition trimStart (s : string) : string := strip is_space2 is_space3 s.

(** From the end the bytes of a character come last byte first. *)
Definition trimEnd (s : string) : string :=
  String.rev (strip (λ c d, is_space2 d c) (λ c d f, is_space3 f d c)
                (String.rev s)).

Definition trim (s : string) : string := trimEnd (trimStart s).

(** [xs.reverse().find(p)] on a copy of [xs]. *)
Definition find_last {A} (p : A → bool) (xs : list A) : option A :=
  List.find p (reverse xs).

End JS.

(** ** Parsed frames *)

Module JSON.

(** What [JSON.parse] returns. *)
Inductive json : Type :=
| JNull
| JBool (b : bool)
| JNumber (n : JS.number)
| JString (s : string)
| JArray (xs : list json)
| JObject (fields : list (string * json)).

(** [v.k] for a value other than [null]: [None] is [undefined].  Of two
    bindings of one key the parser keeps the later one; primitives and
    arrays have none of the properties the router reads. *)
Definition prop (k : string) (v : json) : option json :=
  match v with
  | JObject fields =>
      snd <$> JS.find_last (λ p, String.eqb (fst p) k) fields
  | _ => None
  end.

(** [!!v] for an optional property. *)
Definition truthy (v : option json) : bool :=
  match v with
  | None | Some JNull => false
  | Some (JBool b) => b
  | Some (JNumber n) => JS.truthy_number n
  | Some (JString s) => JS.truthy_string s
  | Some (JArray _) | Some (JObject _) => true
  end.

(** [v || d], whatever [v] is. *)
Definition or_else (d : json) (v : option json) : json :=
  if truthy v then default d v else d.

(** Typed reads.  The wire table gives every field a type; a truthy value
    of another type is not a frame of the protocol and the read answers
    [None]. *)

(** [v || d] at type string. *)
Definition string_or (d : string) (v : option json) : option string :=
  if truthy v then
    match v with Some (JString s) => Some s | _ => None end
  else Some d.

(** [v || d] at type number. *)
Definition number_or (d : JS.number) (v : option json) : option JS.number :=
  if truthy v then
    match v with Some (JNumber n) => Some n | _ => None end
  else Some d.

(** [v || false] *)
Definition bool_or_false (v : option json) : option bool :=
  if truthy v then
    match v with Some (JBool b) => Some b | _ => None end
  else Some false.

(** An optional field copied as it is ([null] read as absent). *)
Definition optional_string (v : option json) : option (option string) :=
  match v with
  | None | Some JNull => Some None
  | Some (JString s) => Some (Some s)
  | _ => None
  end.

Definition optional_number (v : option json) : option (option JS.number) :=
  match v with
  | None | Some JNull => Some None
  | Some (JNumber n) => Some (Some n)
  | _ => None
  end.

Definition optional_bool (v : option json) : option (option bool) :=
  match v with
  | None | Some JNull => Some None
  | Some (JBool b) => Some (Some b)
  | _ => None
  end.

(** [v?.k]: [undefined] when [v] is [undefined] or [null]. *)
Definition opt_prop (k : string) (v : option json) : option json :=
  match v with
  | None | Some JNull => None
  | Some o => prop k o
  end.

(** [v?.map(f)]: [Some None] is [undefined]. *)
Definition optional_array {A} (f : json → option A) (v : option json)
    : option (option (list A)) :=
  match v with
  | None | Some JNull => Some None
  | Some (JArray xs) => Some <$> mapM f xs
  | _ => None
  end.

End JSON.

(** ** Data model (types/index.ts) *)

Module ConnectionState.
Inductive t : Set := Disconnected | Connecting | Connected | Error.
#[global] Instance eq_dec : EqDecision t.
Proof. solve_decision. Defined.
End ConnectionState.

(** The [type] of a [VoiceMessage]:
    ['user' | 'assistant' | 'system' | 'error' | 'warning']. *)
Module MessageType.
Inductive t : Set := user | assistant | system | error | warning.
#[global] Instance eq_dec : EqDecision t.
Proof. solve_decision. Defined.
End MessageType.

Record EmotionData : Type := {
  emotion : string;
  percentage : JS.number
}.

Record WordResult : Type := {
  word : string;
  start : JS.number;
  end_ : JS.number;
  word_confidence : JS.number
}.

Record TurnDetectionResult : Type := {
  isComplete : bool;
  turn_confidence : JS.number;
  reasons : list string;
  processingTime : option JS.number
}.

(** [messageType?: 'initial' | 'warning' | 'hangup' | 'interruption'],
    kept as the string the wire carries. *)
Record Metadata : Type := {
  confidence : option JS.number;
  emotions : option (list EmotionData);
  isFinal : option bool;
  generationId : option string;
  isStreaming : option bool;
  isInterrupted : option bool;
  turnComplete : option bool;
  isUtteranceEnd : option bool;
  messageType : option string;
  words : option (list WordResult);
  turnResult : option TurnDetectionResult
}.

(** The object literal [{}]. *)
Definition noMetadata : Metadata := {|
  confidence := None; emotions := None; isFinal := None;
  generationId := None; isStreaming := None; isInterrupted := None;
  turnComplete := None; isUtteranceEnd := None; messageType := None;
  words := None; turnResult := None
|}.

(** [{ ...md }] for an optional [md]: spreading [undefined] gives [{}]. *)
Definition spread (md : option Metadata) : Metadata := default noMetadata md.

(** [{ ...a, ...b }]: a property of [b] wins where it is set. *)
Definition spread2 (a b : Metadata) : Metadata := {|
  confidence := from_option Some (confidence a) (confidence b);
  emotions := from_option Some (emotions a) (emotions b);
  isFinal := from_option Some (isFinal a) (isFinal b);
  generationId := from_option Some (generationId a) (generationId b);
  isStreaming := from_option Some (isStreaming a) (isStreaming b);
  isInterrupted := from_option Some (isInterrupted a) (isInterrupted b);
  turnComplete := from_option Some (turnComplete a) (turnComplete b);
  isUtteranceEnd := from_option Some (isUtteranceEnd a) (isUtteranceEnd b);
  messageType := from_option Some (messageType a) (messageType b);
  words := from_option Some (words a) (words b);
  turnResult := from_option Some (turnResult a) (turnResult b)
|}.

Definition with_isStreaming (b : bool) (md : Metadata) : Metadata := {|
  confidence := confidence md; emotions := emotions md; isFinal := isFinal md;
  generationId := generationId md; isStreaming := Some b;
  isInterrupted := isInterrupted md; turnComplete := turnComplete md;
  isUtteranceEnd := isUtteranceEnd md; messageType := messageType md;
  words := words md; turnResult := turnResult md
|}.

Definition with_emotions (es : list EmotionData) (md : Metadata) : Metadata := {|
  confidence := confidence md; emotions := Some es; isFinal := isFinal md;
  generationId := generationId md; isStreaming := isStreaming md;
  isInterrupted := isInterrupted md; turnComplete := turnComplete md;
  isUtteranceEnd := isUtteranceEnd md; messageType := messageType md;
  words := words md; turnResult := turnResult md
|}.

Definition with_turn (r : TurnDetectionResult) (md : Metadata) : Metadata := {|
  confidence := confidence md; emotions := emotions md; isFinal := isFinal md;
  generationId := generationId md; isStreaming := isStreaming md;
  isInterrupted := isInterrupted md; turnComplete := Some true;
  isUtteranceEnd := isUtteranceEnd md; messageType := messageType md;
  words := words md; turnResult := Some r
|}.

Record VoiceMessage : Type := {
  id : string;
  type : MessageType.t;
  content : string;
  timestamp : Z;                      (* a [Date], in milliseconds *)
  metadata : option Metadata
}.

(** [msg.metadata?.isStreaming], as a condition. *)
Definition streaming (msg : VoiceMessage) : bool :=
  match metadata msg with
  | Some md => default false (isStreaming md)
  | None => false
  end.

(** [msg.metadata?.emotions], as a condition: an array is truthy, the
    empty one too. *)
Definition has_emotions (msg : VoiceMessage) : bool :=
  match metadata msg with
  | Some md => bool_decide (is_Some (emotions md))
  | None => false
  end.

Definition is_type (t : MessageType.t) (msg : VoiceMessage) : bool :=
  bool_decide (type msg = t).

Record ConnectionMetadata : Type := {
  connectionId : option string;
  status : option string;
  config : JSON.json;
  projectId : option string;
  configId : option string
}.

Record IdleWarning : Type := {
  active : bool;
  timeRemaining : option JS.number;
  warning_type : option string
}.

Record VoiceState : Type := {
  readyState : ConnectionState.t;
  messages : list VoiceMessage;
  isRecording : bool;
  isTTSPlaying : bool;
  isWaitingForResponse : bool;
  connectionMetadata : option ConnectionMetadata;
  error : JS.nullable string;
  idleWarning : option IdleWarning
}.

Definition initialState : VoiceState := {|
  readyState := ConnectionState.Disconnected;
  messages := [];
  isRecording := false;
  isTTSPlaying := false;
  isWaitingForResponse := false;
  connectionMetadata := None;
  error := JS.undefined;
  idleWarning := None
|}.

(** ** The reducer (components/VoiceProvider.tsx) *)

Inductive VoiceAction : Type :=
| SET_CONNECTION_STATE (payload : ConnectionState.t)
| SET_RECORDING (payload : bool)
| SET_TTS_PLAYING (payload : bool)
| SET_WAITING_FOR_RESPONSE (payload : bool)
| ADD_MESSAGE (payload : VoiceMessage)
| UPDATE_STREAMING_MESSAGE (content : string) (type : MessageType.t)
| FINALIZE_STREAMING_MESSAGE (id : string) (content : string)
| UPDATE_MESSAGE_METADATA (id : string) (metadata : option Metadata)
| ADD_EMOTIONS_TO_LATEST_USER_MESSAGE (emotions : list EmotionData)
| CLEAR_MESSAGES
| SET_CONNECTION_METADATA (payload : ConnectionMetadata)
| SET_ERROR (payload : option string)                 (* [string | null] *)
| SET_IDLE_WARNING (active : bool) (timeRemaining : option JS.number)
                   (type : option string)
| RESET_STATE.

(** What one step reads from the clock: [Date.now()] and [new Date()]. *)
Record Clock : Type := {
  now : Z;
  date : Z
}.

Section StateUpdates.
Context (state : VoiceState).

Definition set_readyState_error (s : ConnectionState.t)
    (e : JS.nullable string) : VoiceState := {|
  readyState := s; messages := messages state;
  isRecording := isRecording state; isTTSPlaying := isTTSPlaying state;
  isWaitingForResponse := isWaitingForResponse state;
  connectionMetadata := connectionMetadata state;
  error := e; idleWarning := idleWarning state |}.

Definition set_isRecording (b : bool) : VoiceState := {|
  readyState := readyState state; messages := messages state;
  isRecording := b; isTTSPlaying := isTTSPlaying state;
  isWaitingForResponse := isWaitingForResponse state;
  connectionMetadata := connectionMetadata state;
  error := error state; idleWarning := idleWarning state |}.

Definition set_isTTSPlaying (b : bool) : VoiceState := {|
  readyState := readyState state; messages := messages state;
  isRecording := isRecording state; isTTSPlaying := b;
  isWaitingForResponse := isWaitingForResponse state;
  connectionMetadata := connectionMetadata state;
  error := error state; idleWarning := idleWarning state |}.

Definition set_isWaitingForResponse (b : bool) : VoiceState := {|
  readyState := readyState state; messages := messages state;
  isRecording := isRecording state; isTTSPlaying := isTTSPlaying state;
  isWaitingForResponse := b;
  connectionMetadata := connectionMetadata state;
  error := error state; idleWarning := idleWarning state |}.

Definition set_messages (ms : list VoiceMessage) : VoiceState := {|
  readyState := readyState state; messages := ms;
  isRecording := isRecording state; isTTSPlaying := isTTSPlaying state;
  isWaitingForResponse := isWaitingForResponse state;
  connectionMetadata := connectionMetadata state;
  error := error state; idleWarning := idleWarning state |}.

Definition set_connectionMetadata (md : ConnectionMetadata) : VoiceState := {|
  readyState := readyState state; messages := messages state;
  isRecording := isRecording state; isTTSPlaying := isTTSPlaying state;
  isWaitingForResponse := isWaitingForResponse state;
  connectionMetadata := Some md;
  error := error state; idleWarning := idleWarning state |}.

Definition set_error (e : JS.nullable string) : VoiceState := {|
  readyState := readyState state; messages := messages state;
  isRecording := isRecording state; isTTSPlaying := isTTSPlaying state;
  isWaitingForResponse := isWaitingForResponse state;
  connectionMetadata := connectionMetadata state;
  error := e; idleWarning := idleWarning state |}.

Definition set_idleWarning (w : option IdleWarning) : VoiceState := {|
  readyState := readyState state; messages := messages state;
  isRecording := isRecording state; isTTSPlaying := isTTSPlaying state;
  isWaitingForResponse := isWaitingForResponse state;
  connectionMetadata := connectionMetadata state;
  error := error state; idleWarning := w |}.
End StateUpdates.

Section MessageUpdates.
Context (msg : VoiceMessage).

Definition set_content_timestamp (c : string) (t : Z) : VoiceMessage := {|
  id := id msg; type := type msg; content := c; timestamp := t;
  metadata := metadata msg |}.

Definition set_content_metadata (c : string) (md : Metadata) : VoiceMessage := {|
  id := id msg; type := type msg; content := c;
  timestamp := timestamp msg; metadata := Some md |}.

Definition set_metadata (md : Metadata) : VoiceMessage := {|
  id := id msg; type := type msg; content := content msg;
  timestamp := timestamp msg; metadata := Some md |}.
End MessageUpdates.

(** [`streaming_${Date.now()}`] *)
Definition streaming_id (c : Clock) : string := "streaming_" +:+ pretty (now c).

(** The case [UPDATE_STREAMING_MESSAGE]: the last message is rewritten when
    it is a streaming message of the lane, a new streaming message is pushed
    otherwise. *)
Definition update_streaming_message (c : Clock) (ms : list VoiceMessage)
    (text : string) (lane : MessageType.t) : list VoiceMessage :=
  let lastIndex := Z.of_nat (length ms) - 1 in
  match ms !! Z.to_nat lastIndex with
  | Some lastMsg =>
      if bool_decide (0 ≤ lastIndex) && is_type lane lastMsg && streaming lastMsg
      then <[Z.to_nat lastIndex := set_content_timestamp lastMsg text (date c)]> ms
      else ms ++ [ {| id := streaming_id c; type := lane; content := text;
                      timestamp := date c;
                      metadata := Some (with_isStreaming true noMetadata) |} ]
  | None =>
      ms ++ [ {| id := streaming_id c; type := lane; content := text;
                 timestamp := date c;
                 metadata := Some (with_isStreaming true noMetadata) |} ]
  end.

(** The case [FINALIZE_STREAMING_MESSAGE]. *)
Definition finalize_streaming_message (ms : list VoiceMessage)
    (i text : string) : list VoiceMessage :=
  (λ msg, if String.eqb (id msg) i
          then set_content_metadata msg text
                 (with_isStreaming false (spread (metadata msg)))
          else msg) <$> ms.

(** The case [UPDATE_MESSAGE_METADATA]. *)
Definition update_message_metadata (ms : list VoiceMessage)
    (i : string) (md : option Metadata) : list VoiceMessage :=
  (λ msg, if String.eqb (id msg) i
          then set_metadata msg (spread2 (spread (metadata msg)) (spread md))
          else msg) <$> ms.

(** [msg.type === 'user' && !msg.metadata?.emotions] *)
Definition user_without_emotions (msg : VoiceMessage) : bool :=
  is_type MessageType.user msg && negb (has_emotions msg).

(** [messages.map((msg, idx) => ({ msg, idx })).reverse().find(...)?.idx] *)
Definition lastUserMessageIndex (ms : list VoiceMessage) : option nat :=
  snd <$> JS.find_last (λ p, user_without_emotions (fst p))
            (imap (λ idx msg, (msg, idx)) ms).

(** The case [ADD_EMOTIONS_TO_LATEST_USER_MESSAGE].  The index found is an
    index of [ms] ([lastUserMessageIndex_lookup] below), so the inner [None]
    is never taken. *)
Definition add_emotions_to_latest_user_message (ms : list VoiceMessage)
    (es : list EmotionData) : list VoiceMessage :=
  match lastUserMessageIndex ms with
  | Some i =>
      match ms !! i with
      | Some msg => <[i := set_metadata msg (with_emotions es (spread (metadata msg)))]> ms
      | None => ms
      end
  | None => ms
  end.

Definition voiceReducer (c : Clock) (state : VoiceState) (action : VoiceAction)
    : VoiceState :=
  match action with
  | SET_CONNECTION_STATE payload => set_readyState_error state payload JS.null
  | SET_RECORDING payload => set_isRecording state payload
  | SET_TTS_PLAYING payload => set_isTTSPlaying state payload
  | SET_WAITING_FOR_RESPONSE payload => set_isWaitingForResponse state payload
  | ADD_MESSAGE payload => set_messages state (messages state ++ [payload])
  | UPDATE_STREAMING_MESSAGE text lane =>
      set_messages state (update_streaming_message c (messages state) text lane)
  | FINALIZE_STREAMING_MESSAGE i text =>
      set_messages state (finalize_streaming_message (messages state) i text)
  | UPDATE_MESSAGE_METADATA i md =>
      set_messages state (update_message_metadata (messages state) i md)
  | ADD_EMOTIONS_TO_LATEST_USER_MESSAGE es =>
      set_messages state (add_emotions_to_latest_user_message (messages state) es)
  | CLEAR_MESSAGES => set_messages state []
  | SET_CONNECTION_METADATA payload => set_connectionMetadata state payload
  | SET_ERROR payload =>
      set_error state (match payload with Some m => JS.value m | None => JS.null end)
  | SET_IDLE_WARNING a remaining kind =>
      set_idleWarning state
        (if a then Some {| active := true; timeRemaining := remaining;
                           warning_type := kind |}
         else None)
  | RESET_STATE => initialState
  end.

(** [dispatch] of several actions in order. *)
Definition dispatch (c : Clock) (state : VoiceState) (actions : list VoiceAction)
    : VoiceState :=
  foldl (voiceReducer c) state actions.

(** ** Typed events (types/index.ts) *)

Module TranscriptionResult.
Record t : Type := {
  transcript : string;
  confidence : JS.number;
  isFinal : bool;
  isInterim : bool;
  isSpeechFinal : option bool;
  isUtteranceEnd : option bool;
  words : option (list WordResult);
  turnComplete : option bool;
  sessionId : option string;               (* metadata.sessionId *)
  eventType : string;                      (* metadata.eventType *)
  processingTime : option JS.number        (* metadata.processingTime *)
}.
End TranscriptionResult.

(** The router copies the fields of a [tts_chunk] frame without a look at
    their types; they are kept as the values they are. *)
Module TTSChunk.
Record t : Type := {
  content : JSON.json;
  chunkId : option JSON.json;             (* [None] is [undefined] *)
  isLast : JSON.json
}.
End TTSChunk.

Module LLMResponseChunk.
Record t : Type := {
  content : string;
  isFinal : bool;
  generationId : option string;
  chunkIndex : option JS.number
}.
End LLMResponseChunk.

Module InterruptionMessage.
Record t : Type := { timestamp : JS.number }.
End InterruptionMessage.

Module SystemMessage.
Record t : Type := {
  content : string;
  messageType : string;
  timestamp : JS.number
}.
End SystemMessage.

Module TurnCompleteMessage.
Record t : Type := {
  turnResult : TurnDetectionResult;
  transcript : string;
  timestamp : JS.number
}.
End TurnCompleteMessage.

Module IdleWarningMessage.
Record t : Type := {
  timeRemaining : JS.number;
  warningType : string;
  timestamp : JS.number
}.
End IdleWarningMessage.

Module ErrorCode.
Definition CONNECTION_FAILED : string := "CONNECTION_FAILED".
Definition AUDIO_INITIALIZATION_FAILED : string := "AUDIO_INITIALIZATION_FAILED".
Definition WEBSOCKET_ERROR : string := "WEBSOCKET_ERROR".
End ErrorCode.

Module NextEVIError.
(** The [details] argument of the constructor. *)
Inductive details : Type :=
| no_details
| close_details (code : Z) (reason : string)    (* [{ code, reason }] *)
| event_details                                 (* a DOM [Event] *)
| frame_details (message : JSON.json)
| error_details (message : string).             (* an [Error] caught *)
Record t : Type := {
  message : string;
  code : string;
  details_of : details
}.
End NextEVIError.

(** The callbacks of [WebSocketEvents]: a call [this.events.onX?.(arg)] is
    the signal [onX arg], handed to whoever registered the callbacks. *)
Inductive Signal : Type :=
| onStateChange (s : ConnectionState.t)
| onTranscription (result : TranscriptionResult.t)
| onTTSChunk (chunk : TTSChunk.t)
| onLLMChunk (chunk : LLMResponseChunk.t)
| onEmotion (emotions : list EmotionData)
| onConnectionMetadata (md : ConnectionMetadata)
| onError (e : NextEVIError.t)
| onInterruption (i : InterruptionMessage.t)
| onSystemMessage (m : SystemMessage.t)
| onTurnComplete (turn : TurnCompleteMessage.t)
| onIdleWarning (w : IdleWarningMessage.t).

(** ** The synthesized-audio queue (utils/audio.ts) *)

Module TTSPlaybackProcessor.

Record t : Type := {
  bufferQueue : list (list Z);        (* [Int16Array] blocks *)
  readOffset : Z;
  samplesRemaining : Z;
  isPlaying : bool
}.

(** The state its constructor leaves. *)
Definition create : t := {|
  bufferQueue := []; readOffset := 0; samplesRemaining := 0;
  isPlaying := false |}.

(** What [port.postMessage] carries to the processor. *)
Inductive PortMessage : Type :=
| clear                               (* [{ type: 'clear' }] *)
| samples (data : list Z).

(** [this.port.onmessage] *)
Definition onmessage (msg : PortMessage) (p : t) : t :=
  match msg with
  | clear => create
  | samples data => {|
      bufferQueue := bufferQueue p ++ [data];
      readOffset := readOffset p;
      samplesRemaining := samplesRemaining p + Z.of_nat (length data);
      isPlaying := isPlaying p |}
  end.

End TTSPlaybackProcessor.

Module AudioManager.

(** The handles are present or [null]; the playback worklet carries the
    state of its processor, to which [postMessage] is applied at once. *)
Record t : Type := {
  mediaStream : bool;
  audioContext : bool;
  ttsAudioContext : bool;
  micWorkletNode : bool;
  ttsWorkletNode : option TTSPlaybackProcessor.t;
  isRecording : bool;
  isTTSPlaying : bool;
  audioLevelMonitor : option Z
}.

Definition set_ttsWorkletNode (w : option TTSPlaybackProcessor.t) (a : t) : t := {|
  mediaStream := mediaStream a; audioContext := audioContext a;
  ttsAudioContext := ttsAudioContext a; micWorkletNode := micWorkletNode a;
  ttsWorkletNode := w; isRecording := isRecording a;
  isTTSPlaying := isTTSPlaying a; audioLevelMonitor := audioLevelMonitor a |}.

Definition postMessage (msg : TTSPlaybackProcessor.PortMessage) (a : t) : t :=
  set_ttsWorkletNode (TTSPlaybackProcessor.onmessage msg <$> ttsWorkletNode a) a.

(** [playTTSChunk]: [pcm] is what [base64ToInt16Array] made of the chunk,
    [None] when it threw (the error is logged). *)
Definition playTTSChunk (pcm : option (list Z)) (a : t) : t :=
  match ttsWorkletNode a, pcm with
  | Some _, Some data => postMessage (TTSPlaybackProcessor.samples data) a
  | _, _ => a
  end.

(** [clearTTSBuffer]: "Clear TTS audio buffer (for interruptions)". *)
Definition clearTTSBuffer (a : t) : t :=
  match ttsWorkletNode a with
  | Some _ => postMessage TTSPlaybackProcessor.clear a
  | None => a
  end.

(** What [cleanup] releases. *)
Inductive Released : Type :=
| mic_worklet_disconnected
| tts_worklet_disconnected
| tracks_stopped
| audio_context_closed
| tts_audio_context_closed
| level_monitor_cleared.

Definition cleanup (a : t) : t * list Released :=
  ({| mediaStream := false; audioContext := false; ttsAudioContext := false;
      micWorkletNode := false; ttsWorkletNode := None; isRecording := false;
      isTTSPlaying := false; audioLevelMonitor := None |},
   (if micWorkletNode a then [mic_worklet_disconnected] else []) ++
   (if ttsWorkletNode a is Some _ then [tts_worklet_disconnected] else []) ++
   (if mediaStream a then [tracks_stopped] else []) ++
   (if audioContext a then [audio_context_closed] else []) ++
   (if ttsAudioContext a then [tts_audio_context_closed] else []) ++
   (if audioLevelMonitor a is Some _ then [level_monitor_cleared] else [])).

(** Samples queued for playback. *)
Definition queued (a : t) : list (list Z) :=
  match ttsWorkletNode a with
  | Some p => TTSPlaybackProcessor.bufferQueue p
  | None => []
  end.

End AudioManager.

(** ** What a step reads from its environment *)

(** One record per callback run: the reads of the callback itself
    ([Date.now()], [new Date()], the nine characters cut from
    [Math.random().toString(36)]) and the reads of the reducer steps it
    dispatches. *)
Record Env : Type := {
  clock : Clock;
  random : string;
  reducerClock : Clock;
  (** the [message] of the error caught, where a step of the callback
      threw one *)
  thrown : string
}.

(** ** The transport channel (utils/websocket.ts) *)

Module NextEVIConfig.
Inductive credentials : Type :=
| apiKey (key : string)
| jwt (accessToken : string).
Record t : Type := {
  auth : credentials;
  projectId : option string;
  configId : string;
  websocketUrl : option string;
  debug : bool
}.
End NextEVIConfig.

Module WebSocketManager.

(** The socket is known by the connection id in its URL path; the rest of
    the URL is not read by any step below. *)
Record WebSocket : Type := { path : string }.

Record t : Type := {
  websocket : option WebSocket;
  config : option NextEVIConfig.t;
  connectionState : ConnectionState.t;
  connectionId : option string;
  reconnectAttempts : Z;
  maxReconnectAttempts : Z;
  reconnectDelay : Z;
  isConnecting : bool;
  (** the wrappers that calls of [connect] have put around
      [events.onStateChange] and that are still installed, one inside the
      other *)
  connectPending : nat
}.

(** [new WebSocketManager()] *)
Definition create : t := {|
  websocket := None; config := None;
  connectionState := ConnectionState.Disconnected; connectionId := None;
  reconnectAttempts := 0; maxReconnectAttempts := 3; reconnectDelay := 1000;
  isConnecting := false; connectPending := 0 |}.

Section Updates.
Context (m : t).
Definition set_websocket (w : option WebSocket) : t := {|
  websocket := w; config := config m;
  connectionState := connectionState m; connectionId := connectionId m;
  reconnectAttempts := reconnectAttempts m;
  maxReconnectAttempts := maxReconnectAttempts m;
  reconnectDelay := reconnectDelay m; isConnecting := isConnecting m;
  connectPending := connectPending m |}.
Definition set_config (c : option NextEVIConfig.t) : t := {|
  websocket := websocket m; config := c;
  connectionState := connectionState m; connectionId := connectionId m;
  reconnectAttempts := reconnectAttempts m;
  maxReconnectAttempts := maxReconnectAttempts m;
  reconnectDelay := reconnectDelay m; isConnecting := isConnecting m;
  connectPending := connectPending m |}.
Definition set_connectionState (s : ConnectionState.t) : t := {|
  websocket := websocket m; config := config m;
  connectionState := s; connectionId := connectionId m;
  reconnectAttempts := reconnectAttempts m;
  maxReconnectAttempts := maxReconnectAttempts m;
  reconnectDelay := reconnectDelay m; isConnecting := isConnecting m;
  connectPending := connectPending m |}.
Definition set_connectionId (i : option string) : t := {|
  websocket := websocket m; config := config m;
  connectionState := connectionState m; connectionId := i;
  reconnectAttempts := reconnectAttempts m;
  maxReconnectAttempts := maxReconnectAttempts m;
  reconnectDelay := reconnectDelay m; isConnecting := isConnecting m;
  connectPending := connectPending m |}.
Definition set_reconnectAttempts (n : Z) : t := {|
  websocket := websocket m; config := config m;
  connectionState := connectionState m; connectionId := connectionId m;
  reconnectAttempts := n;
  maxReconnectAttempts := maxReconnectAttempts m;
  reconnectDelay := reconnectDelay m; isConnecting := isConnecting m;
  connectPending := connectPending m |}.
Definition set_isConnecting (b : bool) : t := {|
  websocket := websocket m; config := config m;
  connectionState := connectionState m; connectionId := connectionId m;
  reconnectAttempts := reconnectAttempts m;
  maxReconnectAttempts := maxReconnectAttempts m;
  reconnectDelay := reconnectDelay m; isConnecting := b;
  connectPending := connectPending m |}.
Definition set_connectPending (b : nat) : t := {|
  websocket := websocket m; config := config m;
  connectionState := connectionState m; connectionId := connectionId m;
  reconnectAttempts := reconnectAttempts m;
  maxReconnectAttempts := maxReconnectAttempts m;
  reconnectDelay := reconnectDelay m; isConnecting := isConnecting m;
  connectPending := b |}.
End Updates.

(** What a method does besides changing the manager. *)
Inductive Effect : Type :=
| emit (s : Signal)                           (* [this.events.onX?.(..)] *)
| reconnect_in (delay : Z)                    (* the backoff [setTimeout] *)
| connect_timeout_in (delay : Z)              (* the 10 s [setTimeout] *)
| connect_timeout_cleared
| connect_resolved
| connect_rejected (e : NextEVIError.t)
| socket_created (ws : WebSocket)
| socket_close (code : Z) (reason : string).  (* [websocket.close(..)] *)

(** A method body: the manager after it, and its effects in order. *)
Definition Cmd : Type := t → t * list Effect.

Definition skip : Cmd := λ m, (m, []).
Definition modify (f : t → t) : Cmd := λ m, (f m, []).
Definition perform (e : Effect) : Cmd := λ m, (m, [e]).
Definition seq (c1 c2 : Cmd) : Cmd :=
  λ m, let '(m1, fx1) := c1 m in
       let '(m2, fx2) := c2 m1 in
       (m2, fx1 ++ fx2).
Definition branch (cond : t → bool) (c1 c2 : Cmd) : Cmd :=
  λ m, if cond m then c1 m else c2 m.

#[local] Infix ">>>" := seq (at level 62, right associativity).

Definition connectionFailed : NextEVIError.t := {|
  NextEVIError.message := "Connection failed";
  NextEVIError.code := ErrorCode.CONNECTION_FAILED;
  NextEVIError.details_of := NextEVIError.no_details |}.

(** The 10 s timer of [connect] rejects with this one. *)
Definition connectionTimeout : NextEVIError.t := {|
  NextEVIError.message := "Connection timeout";
  NextEVIError.code := ErrorCode.CONNECTION_FAILED;
  NextEVIError.details_of := NextEVIError.no_details |}.

(** The [catch] block of [connect] throws this one. *)
Definition connectionFailedWith (message : string) : NextEVIError.t := {|
  NextEVIError.message := "Connection failed: " +:+ message;
  NextEVIError.code := ErrorCode.CONNECTION_FAILED;
  NextEVIError.details_of := NextEVIError.error_details message |}.

(** What [n] wrappers, one inside the other, do on [Connected] or [Error]
    once the state went to the callback they wrap: from the innermost to
    the outermost, each clears its timeout and settles its promise. *)
Fixpoint settled (n : nat) (outcome : Effect) : list Effect :=
  match n with
  | O => []
  | S n => connect_timeout_cleared :: outcome :: settled n outcome
  end.

(** Each wrapper also resets [isConnecting] and puts back the callback it
    wrapped: when the outermost is done, the callback installed is the
    wrapper inside it, or the callback of the owner when there was one
    wrapper only. *)
Definition settle (outcome : Effect) : Cmd :=
  λ m, match connectPending m with
       | O => (m, [])
       | S n => (set_connectPending (set_isConnecting m false) n,
                 settled (S n) outcome)
       end.

(** [this.events.onStateChange?.(state)]: the state goes through the
    wrappers to the callback of the owner; on [Connected] or [Error] the
    wrappers then settle. *)
Definition notifyStateChange (s : ConnectionState.t) : Cmd :=
  perform (emit (onStateChange s)) >>>
  match s with
  | ConnectionState.Connected => settle connect_resolved
  | ConnectionState.Error => settle (connect_rejected connectionFailed)
  | _ => skip
  end.

Definition setConnectionState (s : ConnectionState.t) : Cmd :=
  branch (λ m, bool_decide (connectionState m ≠ s))
    (modify (λ m, set_connectionState m s) >>> notifyStateChange s)
    skip.

Definition handleOpen : Cmd :=
  modify (λ m, set_reconnectAttempts m 0) >>>
  setConnectionState ConnectionState.Connected.

Definition maxReconnectExceeded : NextEVIError.t := {|
  NextEVIError.message := "Maximum reconnection attempts exceeded";
  NextEVIError.code := ErrorCode.CONNECTION_FAILED;
  NextEVIError.details_of := NextEVIError.no_details |}.

(** [reconnectDelay * Math.pow(2, reconnectAttempts - 1)], read after the
    counter was incremented. *)
Definition backoff (m : t) : Z :=
  reconnectDelay m * 2 ^ (reconnectAttempts m - 1).

Definition attemptReconnection : Cmd :=
  branch (λ m, bool_decide (maxReconnectAttempts m ≤ reconnectAttempts m)
               || bool_decide (config m = None))
    (setConnectionState ConnectionState.Error >>>
     perform (emit (onError maxReconnectExceeded)))
    (modify (λ m, set_reconnectAttempts m (reconnectAttempts m + 1)) >>>
     λ m, perform (reconnect_in (backoff m)) m).

Definition closedError (code : Z) (reason : string) : NextEVIError.t := {|
  NextEVIError.message := "Connection closed: " +:+ reason;
  NextEVIError.code := ErrorCode.WEBSOCKET_ERROR;
  NextEVIError.details_of := NextEVIError.close_details code reason |}.

(** [handleClose(event)], with [event.code] and [event.reason]. *)
Definition handleClose (code : Z) (reason : string) : Cmd :=
  modify (λ m, set_websocket m None) >>>
  if bool_decide (code = 1000) then
    setConnectionState ConnectionState.Disconnected
  else if bool_decide (4000 ≤ code) then
    setConnectionState ConnectionState.Error >>>
    perform (emit (onError (closedError code reason)))
  else
    attemptReconnection.

Definition socketError : NextEVIError.t := {|
  NextEVIError.message := "WebSocket connection error";
  NextEVIError.code := ErrorCode.WEBSOCKET_ERROR;
  NextEVIError.details_of := NextEVIError.event_details |}.

Definition handleError : Cmd :=
  setConnectionState ConnectionState.Error >>>
  perform (emit (onError socketError)).

(** [`voice_${Date.now()}_${...}`] *)
Definition newConnectionId (e : Env) : string :=
  "voice_" +:+ pretty (now (clock e)) +:+ "_" +:+ random e.

(** [connect(config)] up to the promise it returns.  [created] tells
    whether [new WebSocket(wsUrl)] returned; when it threw, the [catch]
    block runs and the call rejects. *)
Definition connect (e : Env) (created : bool) (cfg : NextEVIConfig.t) : Cmd :=
  branch (λ m, bool_decide (connectionState m = ConnectionState.Connected))
    skip
    (branch isConnecting
       skip
       (modify (λ m, set_connectionId
                       (set_config (set_isConnecting m true) (Some cfg))
                       (Some (newConnectionId e))) >>>
        setConnectionState ConnectionState.Connecting >>>
        if created then
          modify (λ m, set_websocket m (Some {| path := newConnectionId e |})) >>>
          perform (socket_created {| path := newConnectionId e |}) >>>
          perform (connect_timeout_in 10000) >>>
          modify (λ m, set_connectPending m (S (connectPending m)))
        else
          modify (λ m, set_isConnecting m false) >>>
          setConnectionState ConnectionState.Error >>>
          perform (connect_rejected (connectionFailedWith (thrown e))))).

(** The 10 s timer of [connect] fires. *)
Definition connectTimeout : Cmd :=
  modify (λ m, set_isConnecting m false) >>>
  perform (connect_rejected connectionTimeout).

(** The backoff timer fires: [if (this.config) this.connect(this.config)]. *)
Definition reconnectTimer (e : Env) (created : bool) : Cmd :=
  λ m, match config m with
       | Some cfg => connect e created cfg m
       | None => skip m
       end.

(** [disconnect()] *)
Definition disconnect : Cmd :=
  modify (λ m, set_isConnecting m false) >>>
  (λ m, match websocket m with
        | Some _ =>
            (perform (socket_close 1000 "User initiated disconnect") >>>
             modify (λ m, set_websocket m None)) m
        | None => skip m
        end) >>>
  modify (λ m, set_reconnectAttempts
                 (set_config (set_connectionId m None) None) 0) >>>
  setConnectionState ConnectionState.Disconnected.

End WebSocketManager.

(** ** The event router ([handleMessage] and [routeMessage] of the manager)

    Routing reads the frame and calls callbacks; it changes no field of the
    manager, so a routing step is the list of signals it emits. *)

Module Router.
Import JSON.

(** How a routing step ends. *)
Inductive Routed : Type :=
| emits (signals : list Signal)
| throws                      (* a [TypeError] leaves the function *)
| not_a_frame.                (* a field has a type the wire table excludes *)

Definition routed (r : option (list Signal)) : Routed :=
  match r with
  | Some signals => emits signals
  | None => not_a_frame
  end.

Definition decode_word (w : json) : option WordResult :=
  match prop "word" w, prop "start" w, prop "end" w, prop "confidence" w with
  | Some (JString s), Some (JNumber a), Some (JNumber b), Some (JNumber c) =>
      Some {| word := s; start := a; end_ := b; word_confidence := c |}
  | _, _, _, _ => None
  end.

(** [message.metadata?.event_type === 'utterance_end'] *)
Definition is_utterance_end (message : json) : bool :=
  match opt_prop "event_type" (prop "metadata" message) with
  | Some (JString s) => String.eqb s "utterance_end"
  | _ => false
  end.

Definition handleTranscriptionMessage (message : json) : option (list Signal) :=
  transcript ← string_or "" (prop "transcript" message);
  confidence ← number_or 0%Qc (prop "confidence" message);
  isFinal ← bool_or_false (prop "is_final" message);
  isSpeechFinal ← optional_bool (prop "is_speech_final" message);
  words ← optional_array decode_word (prop "words" message);
  sessionId ← optional_string (prop "session_id" message);
  eventType ← string_or "normal" (opt_prop "event_type" (prop "metadata" message));
  processingTime ← optional_number (prop "processing_time" message);
  Some [onTranscription {|
    TranscriptionResult.transcript := transcript;
    TranscriptionResult.confidence := confidence;
    TranscriptionResult.isFinal := isFinal;
    TranscriptionResult.isInterim := negb (truthy (prop "is_final" message));
    TranscriptionResult.isSpeechFinal := isSpeechFinal;
    TranscriptionResult.isUtteranceEnd := Some (is_utterance_end message);
    TranscriptionResult.words := words;
    TranscriptionResult.turnComplete := None;
    TranscriptionResult.sessionId := sessionId;
    TranscriptionResult.eventType := eventType;
    TranscriptionResult.processingTime := processingTime |}].

Definition handleTTSChunkMessage (message : json) : option (list Signal) :=
  Some [onTTSChunk {|
    TTSChunk.content := or_else (JString "") (prop "content" message);
    TTSChunk.chunkId := prop "chunk_id" message;
    TTSChunk.isLast := or_else (JBool false) (prop "is_last" message) |}].

Definition handleLLMChunkMessage (message : json) : option (list Signal) :=
  content ← string_or "" (prop "content" message);
  isFinal ← bool_or_false (prop "is_final" message);
  generationId ← optional_string (prop "generation_id" message);
  chunkIndex ← optional_number (prop "chunk_index" message);
  Some [onLLMChunk {|
    LLMResponseChunk.content := content; LLMResponseChunk.isFinal := isFinal;
    LLMResponseChunk.generationId := generationId;
    LLMResponseChunk.chunkIndex := chunkIndex |}].

(** [emotion.percentage || (emotion.confidence ? emotion.confidence * 100 : 0)].
    The product is the exact one; the code rounds it to a double. *)
Definition decode_emotion (e : json) : option EmotionData :=
  name ← (match prop "emotion" e with Some (JString s) => Some s | _ => None end);
  c ← number_or 0%Qc (prop "confidence" e);
  p ← number_or (c * JS.number_of_Z 100)%Qc (prop "percentage" e);
  Some {| emotion := name; percentage := p |}.

(** The callback runs only for a non-empty list of emotions. *)
Definition handleEmotionMessage (message : json) : option (list Signal) :=
  top ← optional_array decode_emotion (prop "top_emotions" message);
  let emotions := default [] top in
  Some (if bool_decide (0 < length emotions)%nat then [onEmotion emotions] else []).

Definition handleConnectionMetadata (message : json) : option (list Signal) :=
  connectionId ← optional_string (prop "connection_id" message);
  status ← optional_string (prop "status" message);
  projectId ← optional_string (prop "project_id" message);
  configId ← optional_string (prop "config_id" message);
  Some [onConnectionMetadata {|
    connectionId := connectionId; status := status;
    config := (if truthy (prop "config" message)
               then default (JObject []) (prop "config" message)
               else JObject []);
    projectId := projectId; configId := configId |}].

Definition handleErrorMessage (message : json) : option (list Signal) :=
  text ← string_or "Unknown server error" (prop "error_message" message);
  code ← string_or ErrorCode.WEBSOCKET_ERROR (prop "error_code" message);
  Some [onError {| NextEVIError.message := text; NextEVIError.code := code;
                   NextEVIError.details_of := NextEVIError.frame_details message |}].

Definition handleInterruptionMessage (e : Env) (message : json)
    : option (list Signal) :=
  timestamp ← number_or (JS.number_of_Z (now (clock e))) (prop "timestamp" message);
  Some [onInterruption {| InterruptionMessage.timestamp := timestamp |}].

Definition handleSystemMessage (e : Env) (message : json) : option (list Signal) :=
  content ← string_or "" (prop "content" message);
  messageType ← string_or "initial" (prop "message_type" message);
  timestamp ← number_or (JS.number_of_Z (now (clock e))) (prop "timestamp" message);
  Some [onSystemMessage {|
    SystemMessage.content := content; SystemMessage.messageType := messageType;
    SystemMessage.timestamp := timestamp |}].

Definition decode_reason (r : json) : option string :=
  match r with JString s => Some s | _ => None end.

Definition handleTurnCompleteMessage (e : Env) (message : json)
    : option (list Signal) :=
  let turn_result := prop "turn_result" message in
  isComplete ← bool_or_false (opt_prop "is_complete" turn_result);
  confidence ← number_or 0%Qc (opt_prop "confidence" turn_result);
  reasons ← optional_array decode_reason (opt_prop "reasons" turn_result);
  processingTime ← optional_number (opt_prop "processing_time" turn_result);
  transcript ← string_or "" (prop "transcript" message);
  timestamp ← number_or (JS.number_of_Z (now (clock e))) (prop "timestamp" message);
  Some [onTurnComplete {|
    TurnCompleteMessage.turnResult := {|
      isComplete := isComplete; turn_confidence := confidence;
      reasons := default [] reasons; processingTime := processingTime |};
    TurnCompleteMessage.transcript := transcript;
    TurnCompleteMessage.timestamp := timestamp |}].

Definition handleIdleWarningMessage (e : Env) (message : json)
    : option (list Signal) :=
  timeRemaining ← number_or 0%Qc (prop "time_remaining" message);
  warningType ← string_or "warning" (prop "warning_type" message);
  timestamp ← number_or (JS.number_of_Z (now (clock e))) (prop "timestamp" message);
  Some [onIdleWarning {|
    IdleWarningMessage.timeRemaining := timeRemaining;
    IdleWarningMessage.warningType := warningType;
    IdleWarningMessage.timestamp := timestamp |}].

(** The [case] labels of [routeMessage]. *)
Definition recognized : list string :=
  [ "transcription"; "tts_chunk"; "llm_response_chunk"; "emotion_update";
    "connection_metadata"; "error"; "status"; "tts_interruption";
    "system_message"; "turn_complete"; "idle_warning" ].

(** [switch (message.type)]: reading [type] of [null] throws; a [type]
    that is no string equals no label. *)
Definition routeMessage (e : Env) (message : json) : Routed :=
  match message with
  | JNull => throws
  | _ =>
      match prop "type" message with
      | Some (JString tag) =>
          if String.eqb tag "transcription" then
            routed (handleTranscriptionMessage message)
          else if String.eqb tag "tts_chunk" then
            routed (handleTTSChunkMessage message)
          else if String.eqb tag "llm_response_chunk" then
            routed (handleLLMChunkMessage message)
          else if String.eqb tag "emotion_update" then
            routed (handleEmotionMessage message)
          else if String.eqb tag "connection_metadata" then
            routed (handleConnectionMetadata message)
          else if String.eqb tag "error" then
            routed (handleErrorMessage message)
          else if String.eqb tag "status" then
            emits []
          else if String.eqb tag "tts_interruption" then
            routed (handleInterruptionMessage e message)
          else if String.eqb tag "system_message" then
            routed (handleSystemMessage e message)
          else if String.eqb tag "turn_complete" then
            routed (handleTurnCompleteMessage e message)
          else if String.eqb tag "idle_warning" then
            routed (handleIdleWarningMessage e message)
          else
            emits []                (* default: logged *)
      | _ => emits []
      end
  end.

(** [event.data] of a [MessageEvent]. *)
Inductive MessageData : Type :=
| text (s : string)
| binary (bytes : list Z).

Section Parse.
(** [JSON.parse] on a string: [None] when it throws a [SyntaxError]. *)
Context (JSON_parse : string → option json).

(** [JSON.parse(event.data)]: an [ArrayBuffer] is first turned into the
    string ["[object ArrayBuffer]"], which is no JSON text. *)
Definition parse (data : MessageData) : option json :=
  match data with
  | text s => JSON_parse s
  | binary _ => None
  end.

(** [handleMessage(event)]: the [try] block parses and routes, the
    [catch] block logs. *)
Definition handleMessage (e : Env) (data : MessageData) : Routed :=
  match parse data with
  | Some message =>
      match routeMessage e message with
      | throws => emits []
      | r => r
      end
  | None => emits []
  end.
End Parse.

End Router.

(** ** The provider (components/VoiceProvider.tsx) *)

(** Built-ins of the platform that the callbacks call. *)
Record Runtime : Type := {
  (** [JSON.parse]: [None] when it throws *)
  JSON_parse : string → option JSON.json;
  (** [atob] of a value, which it first turns into a string, followed by
      [new Int16Array(buffer)]: [None] when either throws *)
  base64ToInt16Array : JSON.json → option (list Z);
  (** a number inside a template literal *)
  number_toString : JS.number → string
}.

Module VoiceProvider.

(** The reducer state and the three refs of the component. *)
Record t : Type := {
  state : VoiceState;
  wsManagerRef : option WebSocketManager.t;
  audioManagerRef : option AudioManager.t;
  currentStreamingMessageId : option string
}.

(** The first render. *)
Definition mount : t := {|
  state := initialState; wsManagerRef := None; audioManagerRef := None;
  currentStreamingMessageId := None |}.

Section Updates.
Context (p : t).
Definition set_state (s : VoiceState) : t := {|
  state := s; wsManagerRef := wsManagerRef p;
  audioManagerRef := audioManagerRef p;
  currentStreamingMessageId := currentStreamingMessageId p |}.
Definition set_wsManagerRef (w : option WebSocketManager.t) : t := {|
  state := state p; wsManagerRef := w;
  audioManagerRef := audioManagerRef p;
  currentStreamingMessageId := currentStreamingMessageId p |}.
Definition set_audioManagerRef (a : option AudioManager.t) : t := {|
  state := state p; wsManagerRef := wsManagerRef p;
  audioManagerRef := a;
  currentStreamingMessageId := currentStreamingMessageId p |}.
Definition set_currentStreamingMessageId (i : option string) : t := {|
  state := state p; wsManagerRef := wsManagerRef p;
  audioManagerRef := audioManagerRef p;
  currentStreamingMessageId := i |}.
End Updates.

(** [dispatch(a1); dispatch(a2); ...] from one callback. *)
Definition run (e : Env) (actions : list VoiceAction) (p : t) : t :=
  set_state p (dispatch (reducerClock e) (state p) actions).

(** [`msg_${Date.now()}_${Math.random().toString(36).substr(2, 9)}`] *)
Definition generateMessageId (e : Env) : string :=
  "msg_" +:+ pretty (now (clock e)) +:+ "_" +:+ random e.

(** The action that [addMessage(type, content, metadata)] dispatches. *)
Definition addMessage (e : Env) (t : MessageType.t) (text : string)
    (md : option Metadata) : VoiceAction :=
  ADD_MESSAGE {| id := generateMessageId e; type := t; content := text;
                 timestamp := date (clock e); metadata := md |}.

(** *** [wsEvents] *)

Definition handle_onStateChange (e : Env) (s : ConnectionState.t) : t → t :=
  run e [SET_CONNECTION_STATE s; SET_IDLE_WARNING false None None].

Definition finalTranscriptMetadata (result : TranscriptionResult.t) : Metadata := {|
  confidence := Some (TranscriptionResult.confidence result);
  emotions := None;
  isFinal := Some true;
  generationId := None; isStreaming := None; isInterrupted := None;
  turnComplete := TranscriptionResult.turnComplete result;
  isUtteranceEnd := TranscriptionResult.isUtteranceEnd result;
  messageType := None;
  words := TranscriptionResult.words result;
  turnResult := None |}.

Definition handle_onTranscription (e : Env) (result : TranscriptionResult.t)
    (p : t) : t :=
  let transcript := TranscriptionResult.transcript result in
  let spoken := JS.truthy_string (JS.trim transcript) in
  let p := if spoken then run e [SET_IDLE_WARNING false None None] p else p in
  if TranscriptionResult.isFinal result && spoken then
    run e [ addMessage e MessageType.user transcript
              (Some (finalTranscriptMetadata result));
            SET_WAITING_FOR_RESPONSE true ] p
  else if spoken then
    run e [UPDATE_STREAMING_MESSAGE transcript MessageType.user] p
  else p.

Definition handle_onLLMChunk (e : Env) (chunk : LLMResponseChunk.t) (p : t) : t :=
  let text := LLMResponseChunk.content chunk in
  if LLMResponseChunk.isFinal chunk then
    let p :=
      match currentStreamingMessageId p with
      | Some i =>
          set_currentStreamingMessageId
            (run e [FINALIZE_STREAMING_MESSAGE i text] p) None
      | None =>
          run e [ addMessage e MessageType.assistant text
                    (Some {| confidence := None; emotions := None;
                             isFinal := Some true;
                             generationId := LLMResponseChunk.generationId chunk;
                             isStreaming := None; isInterrupted := None;
                             turnComplete := None; isUtteranceEnd := None;
                             messageType := None; words := None;
                             turnResult := None |}) ] p
      end in
    run e [SET_WAITING_FOR_RESPONSE false] p
  else
    let p :=
      match currentStreamingMessageId p with
      | Some _ => p
      | None => set_currentStreamingMessageId p (Some (generateMessageId e))
      end in
    run e [UPDATE_STREAMING_MESSAGE text MessageType.assistant] p.

Definition handle_onEmotion (e : Env) (emotions : list EmotionData) : t → t :=
  run e [ADD_EMOTIONS_TO_LATEST_USER_MESSAGE emotions].

Definition handle_onConnectionMetadata (e : Env) (md : ConnectionMetadata)
    : t → t :=
  run e [SET_CONNECTION_METADATA md].

Definition handle_onError (e : Env) (err : NextEVIError.t) : t → t :=
  run e [ SET_ERROR (Some (NextEVIError.message err));
          addMessage e MessageType.error
            ("Error: " +:+ NextEVIError.message err) None ].

(** "Handle TTS interruption" *)
Definition handle_onInterruption (e : Env) (i : InterruptionMessage.t) : t → t :=
  run e [SET_TTS_PLAYING false].

Definition handle_onSystemMessage (e : Env) (m : SystemMessage.t) : t → t :=
  run e [ addMessage e MessageType.system (SystemMessage.content m)
            (Some {| confidence := None; emotions := None; isFinal := None;
                     generationId := None; isStreaming := None;
                     isInterrupted := None; turnComplete := None;
                     isUtteranceEnd := None;
                     messageType := Some (SystemMessage.messageType m);
                     words := None; turnResult := None |}) ].

(** [onTurnComplete] reads [state.messages] of the render that created the
    callback: [seen] is that state. *)
Definition handle_onTurnComplete (seen : VoiceState) (e : Env)
    (turn : TurnCompleteMessage.t) (p : t) : t :=
  let transcript := TurnCompleteMessage.transcript turn in
  if JS.truthy_string transcript && bool_decide (0 < length (messages seen))%nat then
    match JS.find_last (is_type MessageType.user) (messages seen) with
    | Some lastUserMessage =>
        if String.eqb (content lastUserMessage) (JS.trim transcript) then
          run e [ addMessage e MessageType.user (content lastUserMessage)
                    (Some (with_turn (TurnCompleteMessage.turnResult turn)
                             (spread (metadata lastUserMessage)))) ] p
        else p
    | None => p
    end
  else p.

Section Runtime.
Context (rt : Runtime).

Definition handle_onTTSChunk (chunk : TTSChunk.t) (p : t) : t :=
  match audioManagerRef p with
  | Some a =>
      if JSON.truthy (Some (TTSChunk.content chunk)) then
        set_audioManagerRef p
          (Some (AudioManager.playTTSChunk
                   (base64ToInt16Array rt (TTSChunk.content chunk)) a))
      else p
  | None => p
  end.

Definition handle_onIdleWarning (e : Env) (w : IdleWarningMessage.t) : t → t :=
  let remaining := IdleWarningMessage.timeRemaining w in
  let final := String.eqb (IdleWarningMessage.warningType w) "final_warning" in
  run e [ SET_IDLE_WARNING true (Some remaining)
            (Some (IdleWarningMessage.warningType w));
          addMessage e MessageType.warning
            (if final
             then "Final warning: Connection will end in "
                    +:+ number_toString rt remaining +:+ " seconds"
             else "Idle warning: " +:+ number_toString rt remaining
                    +:+ " seconds remaining")
            (Some {| confidence := None; emotions := None; isFinal := None;
                     generationId := None; isStreaming := None;
                     isInterrupted := None; turnComplete := None;
                     isUtteranceEnd := None;
                     messageType := Some (if final then "hangup" else "warning");
                     words := None; turnResult := None |}) ].

(** The object [wsEvents], applied to one signal. *)
Definition wsEvents (seen : VoiceState) (e : Env) (s : Signal) : t → t :=
  match s with
  | onStateChange cs => handle_onStateChange e cs
  | onTranscription result => handle_onTranscription e result
  | onTTSChunk chunk => handle_onTTSChunk chunk
  | onLLMChunk chunk => handle_onLLMChunk e chunk
  | onEmotion emotions => handle_onEmotion e emotions
  | onConnectionMetadata md => handle_onConnectionMetadata e md
  | onError err => handle_onError e err
  | onInterruption i => handle_onInterruption e i
  | onSystemMessage m => handle_onSystemMessage e m
  | onTurnComplete turn => handle_onTurnComplete seen e turn
  | onIdleWarning w => handle_onIdleWarning e w
  end.

(** The callbacks run in the order the manager called them. *)
Definition deliver (seen : VoiceState) (e : Env) (signals : list Signal)
    (p : t) : t :=
  foldl (λ p s, wsEvents seen e s p) p signals.

Definition emitted (fx : list WebSocketManager.Effect) : list Signal :=
  omap (λ f, match f with WebSocketManager.emit s => Some s | _ => None end) fx.

(** A method of the manager held in [wsManagerRef] runs, and the
    callbacks it calls run with it. *)
Definition manager (seen : VoiceState) (e : Env) (c : WebSocketManager.Cmd)
    (p : t) : t * list WebSocketManager.Effect :=
  match wsManagerRef p with
  | Some m =>
      let '(m', fx) := c m in
      (deliver seen e (emitted fx) (set_wsManagerRef p (Some m')), fx)
  | None => (p, [])
  end.

(** *** Socket events reaching the provider *)

Inductive Step : Type :=
| returns (p : t)
| throws
| not_a_frame.

(** A frame parsed already. *)
Definition receive (seen : VoiceState) (e : Env) (message : JSON.json)
    (p : t) : Step :=
  match Router.routeMessage e message with
  | Router.emits signals => returns (deliver seen e signals p)
  | Router.throws => throws
  | Router.not_a_frame => not_a_frame
  end.

(** [websocket.onmessage] *)
Definition onmessage (seen : VoiceState) (e : Env)
    (data : Router.MessageData) (p : t) : Step :=
  match Router.handleMessage (JSON_parse rt) e data with
  | Router.emits signals => returns (deliver seen e signals p)
  | Router.throws => throws
  | Router.not_a_frame => not_a_frame
  end.

(** [websocket.onclose] *)
Definition onclose (seen : VoiceState) (e : Env) (code : Z) (reason : string)
    : t → t * list WebSocketManager.Effect :=
  manager seen e (WebSocketManager.handleClose code reason).

(** *** [cleanup] and [disconnect] *)

Inductive Released : Type :=
| audio (r : AudioManager.Released)
| socket (f : WebSocketManager.Effect).

Definition cleanup (seen : VoiceState) (e : Env) (p : t) : t * list Released :=
  let '(p, fx1) :=
    match audioManagerRef p with
    | Some a =>
        (set_audioManagerRef p None, audio <$> snd (AudioManager.cleanup a))
    | None => (p, [])
    end in
  let '(p, fx2) :=
    match wsManagerRef p with
    | Some _ =>
        let '(p, fx) := manager seen e WebSocketManager.disconnect p in
        (set_wsManagerRef p None, socket <$> fx)
    | None => (p, [])
    end in
  (set_currentStreamingMessageId
     (run e [ SET_RECORDING false; SET_TTS_PLAYING false;
              SET_WAITING_FOR_RESPONSE false ] p) None,
   fx1 ++ fx2).

Definition disconnect (seen : VoiceState) (e : Env) (p : t)
    : t * list Released :=
  let '(p, fx) := cleanup seen e p in
  (run e [RESET_STATE] p, fx).

End Runtime.

End VoiceProvider.

(** ** Observations used by the statements *)

Module Observe.
Import WebSocketManager.

(** The errors handed to [onError], in order. *)
Definition errors (fx : list Effect) : list NextEVIError.t :=
  omap (λ f, match f with emit (onError err) => Some err | _ => None end) fx.

(** The states handed to [onStateChange], in order. *)
Definition stateChanges (fx : list Effect) : list ConnectionState.t :=
  omap (λ f, match f with emit (onStateChange s) => Some s | _ => None end) fx.

(** The delays of the reconnection timers set, in order. *)
Definition reconnects (fx : list Effect) : list Z :=
  omap (λ f, match f with reconnect_in d => Some d | _ => None end) fx.

(** The error that reports the exhausted retries. *)
Definition isMaxReconnectExceeded (err : NextEVIError.t) : bool :=
  String.eqb (NextEVIError.message err) "Maximum reconnection attempts exceeded".

(** The reports of exhausted retries among the errors handed out. *)
Definition maxReconnectErrors (fx : list Effect) : list NextEVIError.t :=
  filter (λ err, isMaxReconnectExceeded err = true) (errors fx).

(** A close code that is neither the normal one nor an application one. *)
Definition abnormal (code : Z) : Prop := code ≠ 1000 ∧ code < 4000.

(** [message.type] is one of the [case] labels. *)
Definition recognizedTag (message : JSON.json) : bool :=
  match JSON.prop "type" message with
  | Some (JSON.JString tag) => bool_decide (tag ∈ Router.recognized)
  | _ => false
  end.

(** The streaming messages of a lane. *)
Definition streamingOf (lane : MessageType.t) (ms : list VoiceMessage)
    : list VoiceMessage :=
  filter (λ msg, is_type lane msg && streaming msg = true) ms.

Definition ofType (t : MessageType.t) (ms : list VoiceMessage)
    : list VoiceMessage :=
  filter (λ msg, is_type t msg = true) ms.
End Observe.

(** ** Socket events in sequence *)

Module Trace.
Import WebSocketManager.

Inductive SocketEvent : Type :=
| opened                                        (* [onopen] *)
| closed (code : Z) (reason : string)           (* [onclose] *)
| failed                                        (* [onerror] *)
| reconnectTimerFired (e : Env) (created : bool)
| connectTimedOut.

Definition step (ev : SocketEvent) : Cmd :=
  match ev with
  | opened => handleOpen
  | closed code reason => handleClose code reason
  | failed => handleError
  | reconnectTimerFired e created => reconnectTimer e created
  | connectTimedOut => connectTimeout
  end.

Fixpoint run (evs : list SocketEvent) : Cmd :=
  match evs with
  | [] => skip
  | ev :: evs => seq (step ev) (run evs)
  end.

(** Events between two closures of a failing connection: anything but a
    closure or a successful open. *)
Definition between (ev : SocketEvent) : Prop :=
  match ev with
  | opened | closed _ _ => False
  | _ => True
  end.
(** What the events between two closures leave alone. *)
Definition Quiet (m : t) (r : t * list Effect) : Prop :=
  reconnectAttempts r.1 = reconnectAttempts m ∧
  maxReconnectAttempts r.1 = maxReconnectAttempts m ∧
  reconnectDelay r.1 = reconnectDelay m ∧
  (config m ≠ None → config r.1 ≠ None) ∧
  Observe.reconnects r.2 = [] ∧
  Observe.maxReconnectErrors r.2 = [].
End Trace.

(** ** Sample inputs *)

Module Example.

(** A callback run at clock reading [n]; the reducer runs a millisecond
    later. *)
Definition env (n : Z) : Env := {|
  clock := {| now := n; date := n |};
  random := "k3x9q2m1z";
  reducerClock := {| now := n + 1; date := n + 1 |};
  thrown := "Invalid URL" |}.

(** A transcription event as [handleTranscriptionMessage] builds it from a
    frame that carries [transcript], [confidence] and [is_final]. *)
Definition transcription (final : bool) (text : string) (c : JS.number)
    : TranscriptionResult.t := {|
  TranscriptionResult.transcript := text;
  TranscriptionResult.confidence := c;
  TranscriptionResult.isFinal := final;
  TranscriptionResult.isInterim := negb final;
  TranscriptionResult.isSpeechFinal := None;
  TranscriptionResult.isUtteranceEnd := Some false;
  TranscriptionResult.words := None;
  TranscriptionResult.turnComplete := None;
  TranscriptionResult.sessionId := None;
  TranscriptionResult.eventType := "normal";
  TranscriptionResult.processingTime := None |}.

Definition interim (text : string) : TranscriptionResult.t :=
  transcription false text 0%Qc.

(** An LLM chunk as [handleLLMChunkMessage] builds it. *)
Definition chunk (final : bool) (text : string) : LLMResponseChunk.t := {|
  LLMResponseChunk.content := text;
  LLMResponseChunk.isFinal := final;
  LLMResponseChunk.generationId := None;
  LLMResponseChunk.chunkIndex := None |}.

(** One interim transcript after another. *)
Definition interims (events : list (Env * string)) (p : VoiceProvider.t)
    : VoiceProvider.t :=
  foldl (λ p ev, VoiceProvider.handle_onTranscription ev.1 (interim ev.2) p)
    p events.

Definition frame (tag : string) : JSON.json :=
  JSON.JObject [("type", JSON.JString tag)].

(** A runtime whose parser knows two texts. *)
Definition runtime : Runtime := {|
  JSON_parse := λ s,
    if String.eqb s "pong-frame" then Some (frame "pong")
    else if String.eqb s "null" then Some JSON.JNull
    else None;
  base64ToInt16Array := λ _, None;
  number_toString := λ n, pretty (Qnum n `div` Z.pos (Qden n)) |}.


Definition config : NextEVIConfig.t := {|
  NextEVIConfig.auth := NextEVIConfig.apiKey "oak_test";
  NextEVIConfig.projectId := Some "p1";
  NextEVIConfig.configId := "c1";
  NextEVIConfig.websocketUrl := None;
  NextEVIConfig.debug := false |}.

(** A manager whose connection is open. *)
Definition connected : WebSocketManager.t := {|
  WebSocketManager.websocket := Some {| WebSocketManager.path := "voice_1_k3x9q2m1z" |};
  WebSocketManager.config := Some config;
  WebSocketManager.connectionState := ConnectionState.Connected;
  WebSocketManager.connectionId := Some "voice_1_k3x9q2m1z";
  WebSocketManager.reconnectAttempts := 0;
  WebSocketManager.maxReconnectAttempts := 3;
  WebSocketManager.reconnectDelay := 1000;
  WebSocketManager.isConnecting := false;
  WebSocketManager.connectPending := 0 |}.

(** An audio manager with one block of synthesized audio queued. *)
Definition speaking : AudioManager.t := {|
  AudioManager.mediaStream := true;
  AudioManager.audioContext := true;
  AudioManager.ttsAudioContext := true;
  AudioManager.micWorkletNode := true;
  AudioManager.ttsWorkletNode := Some {|
    TTSPlaybackProcessor.bufferQueue := [[12; -7; 30]];
    TTSPlaybackProcessor.readOffset := 0;
    TTSPlaybackProcessor.samplesRemaining := 3;
    TTSPlaybackProcessor.isPlaying := true |};
  AudioManager.isRecording := true;
  AudioManager.isTTSPlaying := true;
  AudioManager.audioLevelMonitor := None |}.

(** A session in which the assistant is being played. *)
Definition session : VoiceProvider.t := {|
  VoiceProvider.state :=
    set_isTTSPlaying
      (set_isRecording
         (set_readyState_error initialState ConnectionState.Connected JS.null)
         true)
      true;
  VoiceProvider.wsManagerRef := Some connected;
  VoiceProvider.audioManagerRef := Some speaking;
  VoiceProvider.currentStreamingMessageId := None |}.

(** The user message a final transcript ["hello"] left in the log. *)
Definition hello : VoiceMessage := {|
  id := "msg_5_k3x9q2m1z"; type := MessageType.user; content := "hello";
  timestamp := 5;
  metadata := Some (VoiceProvider.finalTranscriptMetadata
                      (transcription true "hello" 0%Qc)) |}.

Definition turn (text : string) : TurnCompleteMessage.t := {|
  TurnCompleteMessage.turnResult := {|
    isComplete := true; turn_confidence := 1%Qc; reasons := ["silence"];
    processingTime := None |};
  TurnCompleteMessage.transcript := text;
  TurnCompleteMessage.timestamp := JS.number_of_Z 9 |}.


(** A playback processor with three samples posted and none played. *)
Definition queue : TTSPlaybackProcessor.t :=
  TTSPlaybackProcessor.onmessage (TTSPlaybackProcessor.samples [100; -200; 300])
    TTSPlaybackProcessor.create.

End Example.

(** ** The rest of the provider: audio callbacks, the ends of [connect],
    the two message operations *)

Module Orchestrator.
Import VoiceProvider.




(** The last step of a [connect] that succeeded. *)
Definition connect_ready (e : Env) : t → t :=
  run e [ SET_RECORDING true;
          addMessage e MessageType.system
            "Connected to NextEVI. Start speaking!" None ].

Definition clearMessages (e : Env) : t → t := run e [CLEAR_MESSAGES].

(** [sendMessage(content)], "for testing". *)
Definition sendMessage (e : Env) (text : string) : t → t :=
  run e [addMessage e MessageType.user text None].

(** [audioEvents.onTTSPlayback] *)
Definition handle_onTTSPlayback (e : Env) (isPlaying : bool) : t → t :=
  run e [SET_TTS_PLAYING isPlaying].

(** [audioEvents.onError] *)
Definition handle_audio_onError (e : Env) (err : NextEVIError.t) : t → t :=
  run e [ SET_ERROR (Some (NextEVIError.message err));
          addMessage e MessageType.error
            ("Audio Error: " +:+ NextEVIError.message err) None ].

End Orchestrator.

(** ** More observations *)

Module Log.

(** What identifies a message and its place in the conversation. *)
Definition identity (msg : VoiceMessage) : string * MessageType.t :=
  (id msg, type msg).


(** The actions that empty the log. *)
Definition clears (a : VoiceAction) : Prop :=
  a = CLEAR_MESSAGES ∨ a = RESET_STATE.

(** One non-final LLM chunk after another. *)
Definition chunks (events : list (Env * string)) (p : VoiceProvider.t)
    : VoiceProvider.t :=
  foldl (λ p ev, VoiceProvider.handle_onLLMChunk ev.1 (Example.chunk false ev.2) p)
    p events.

End Log.

(** ** The life of a connection: calls and socket events in sequence *)

Module Lifecycle.
Import WebSocketManager.

Inductive Action : Type :=
| socketEvent (ev : Trace.SocketEvent)
| connectCall (e : Env) (created : bool) (cfg : NextEVIConfig.t)
| disconnectCall.

Definition step (a : Action) : Cmd :=
  match a with
  | socketEvent ev => Trace.step ev
  | connectCall e created cfg => connect e created cfg
  | disconnectCall => disconnect
  end.

Fixpoint run (actions : list Action) : Cmd :=
  match actions with
  | [] => skip
  | a :: actions => seq (step a) (run actions)
  end.

(** What every step keeps true of a manager. *)
Definition Sound (m : t) : Prop :=
  0 ≤ reconnectAttempts m ≤ maxReconnectAttempts m ∧
  maxReconnectAttempts m = 3 ∧
  reconnectDelay m = 1000 ∧
  (websocket m ≠ None → config m ≠ None ∧ connectionId m ≠ None).

(** The manager [disconnect] leaves. *)
Definition torn_down (m : t) : t := {|
  websocket := None; config := None;
  connectionState := ConnectionState.Disconnected; connectionId := None;
  reconnectAttempts := 0;
  maxReconnectAttempts := maxReconnectAttempts m;
  reconnectDelay := reconnectDelay m;
  isConnecting := false;
  connectPending := connectPending m |}.

End Lifecycle.

(** ** The wire tags *)

Module Wire.



End Wire.

(** ** The playback clock ([TTSPlaybackProcessor.process], utils/audio.ts) *)

Module Playback.
Import TTSPlaybackProcessor.

(** What the processor posts to the audio manager. *)
Inductive PortEvent : Type :=
| playbackStarted
| playbackStopped.

(** An output sample: [None] is [NaN], what reading past the end of a
    block, divided by 32768, gives.  A 16-bit sample divided by 32768 is a
    [float32] exactly. *)
Definition Sample : Type := option JS.number.

Definition silence : Sample := Some 0%Qc.

(** [currentBuffer[this.readOffset] / 32768] *)
Definition read (currentBuffer : list Z) (offset : Z) : Sample :=
  if bool_decide (0 ≤ offset) then
    (λ x, (JS.number_of_Z x / JS.number_of_Z 32768)%Qc)
      <$> currentBuffer !! Z.to_nat offset
  else None.

(** One turn of the first [while] loop, on a queue that is not empty. *)
Definition advance (currentBuffer : list Z) (rest : list (list Z)) (p : t) : t :=
  if bool_decide (Z.of_nat (length currentBuffer) ≤ readOffset p + 1) then
    {| bufferQueue := rest; readOffset := 0;
       samplesRemaining := samplesRemaining p - 1; isPlaying := isPlaying p |}
  else
    {| bufferQueue := currentBuffer :: rest; readOffset := readOffset p + 1;
       samplesRemaining := samplesRemaining p - 1; isPlaying := isPlaying p |}.

(** The first [while] loop, for an output block with [n] places left. *)
Fixpoint drain (n : nat) (p : t) : t * list Sample :=
  match n with
  | O => (p, [])
  | S n' =>
      match bufferQueue p with
      | [] => (p, [])
      | currentBuffer :: rest =>
          let '(p', out) := drain n' (advance currentBuffer rest p) in
          (p', read currentBuffer (readOffset p) :: out)
      end
  end.

Definition set_isPlaying (b : bool) (p : t) : t := {|
  bufferQueue := bufferQueue p; readOffset := readOffset p;
  samplesRemaining := samplesRemaining p; isPlaying := b |}.

(** [process(inputs, outputs)] for an output channel of [n] samples: the
    processor after it, the channel, and what it posted. *)
Definition process (n : nat) (p : t) : t * list Sample * list PortEvent :=
  if bool_decide (samplesRemaining p = 0) then
    (set_isPlaying false p, replicate n silence,
     if isPlaying p then [playbackStopped] else [])
  else
    let '(p', out) := drain n (set_isPlaying true p) in
    (p', out ++ replicate (n - length out) silence,
     if isPlaying p then [] else [playbackStarted]).

(** The samples still to be played, in order. *)
Definition pending (p : t) : list Z :=
  drop (Z.to_nat (readOffset p)) (concat (bufferQueue p)).

(** The state the three operations keep the processor in, as long as no
    empty block is posted. *)
Definition WellFormed (p : t) : Prop :=
  Forall (λ block, block ≠ []) (bufferQueue p) ∧
  0 ≤ readOffset p ∧
  match bufferQueue p with
  | [] => readOffset p = 0
  | block :: _ => readOffset p < Z.of_nat (length block)
  end ∧
  samplesRemaining p = Z.of_nat (length (pending p)).

(** How a sample sounds. *)
Definition play (x : Z) : Sample :=
  Some (JS.number_of_Z x / JS.number_of_Z 32768)%Qc.

(** What happens to a processor: a block of samples is posted to it,
    [clear] is posted to it, or it renders an output block of [n]
    samples. *)
Inductive Op : Type :=
| posted (data : list Z)
| cleared
| rendered (n : nat).

Definition step (op : Op) (p : t) : t :=
  match op with
  | posted data => onmessage (samples data) p
  | cleared => onmessage clear p
  | rendered n => (process n p).1.1
  end.

(** The processor after these, from its constructor on. *)
Definition after (ops : list Op) : t := foldl (λ p op, step op p) create ops.

(** No block posted is empty. *)
Definition NoEmptyBlock (ops : list Op) : Prop :=
  Forall (λ op, match op with posted data => data ≠ [] | _ => True end) ops.

(** The same processor with another count of samples remaining. *)
Definition set_samplesRemaining (r : Z) (p : t) : t := {|
  bufferQueue := bufferQueue p; readOffset := readOffset p;
  samplesRemaining := r; isPlaying := isPlaying p |}.

End Playback.

(** ** The capture processor (utils/audio.ts, [getPCMProcessorCode]) *)

Module PCMCaptureProcessor.

(** A sample of a [Float32Array].  The finite ones are kept exact: a sample
    has 24 significant bits and the two factors of [float32ToPCM16] have
    15 and 16, so the products the code computes in double precision are
    exact. *)
Inductive Float : Type :=
| nan
| infinity (negative : bool)
| finite (x : JS.number).

(** [Math.abs(x)] *)
Definition abs (x : Float) : Float :=
  match x with
  | nan => nan
  | infinity _ => infinity false
  | finite q => finite (if decide (q < 0)%Qc then (- q)%Qc else q)
  end.

(** [a > b] *)
Definition gt (a b : Float) : bool :=
  match a, b with
  | nan, _ | _, nan => false
  | infinity true, _ => false
  | infinity false, infinity false => false
  | infinity false, _ => true
  | finite _, infinity negative => negative
  | finite x, finite y => bool_decide (y < x)%Qc
  end.

(** [Math.min(1.0, x)] *)
Definition min_one (x : Float) : Float :=
  match x with
  | nan => nan
  | infinity true => infinity true
  | infinity false => finite 1%Qc
  | finite q => if decide (q ≤ 1)%Qc then finite q else finite 1%Qc
  end.

(** [Math.max(-1.0, x)] *)
Definition max_minus_one (x : Float) : Float :=
  match x with
  | nan => nan
  | infinity true => finite (-1)%Qc
  | infinity false => infinity false
  | finite q => if decide (-1 ≤ q)%Qc then finite q else finite (-1)%Qc
  end.

(** [x < 0] *)
Definition negative (x : Float) : bool :=
  match x with
  | nan => false
  | infinity negative => negative
  | finite q => bool_decide (q < 0)%Qc
  end.

(** [x * c] for a positive integer [c]. *)
Definition times (c : Z) (x : Float) : Float :=
  match x with
  | finite q => finite (q * JS.number_of_Z c)%Qc
  | _ => x
  end.

(** The integer part of a number, toward zero. *)
Definition trunc (q : JS.number) : Z := Z.quot (Qnum q) (Z.pos (Qden q)).

(** What an [Int16Array] keeps of a number stored in it: the integer
    part, modulo 2^16, read as a signed integer; zero for what is not
    finite. *)
Definition toInt16 (x : Float) : Z :=
  match x with
  | finite q => (trunc q + 32768) mod 65536 - 32768
  | _ => 0
  end.

(** One turn of the loop of [float32ToPCM16]. *)
Definition pcm16 (x : Float) : Z :=
  let sample := max_minus_one (min_one x) in
  toInt16 (if negative sample then times 32768 sample else times 32767 sample).

Definition float32ToPCM16 (float32Array : list Float) : list Z :=
  pcm16 <$> float32Array.

Definition chunkSize : nat := 2048.

Record t : Type := {
  buffer : list Float;                (* [Float32Array(chunkSize)] *)
  bufferIndex : nat;
  chunksProcessed : nat;
  silentChunks : nat
}.

Definition create : t := {|
  buffer := replicate chunkSize (finite 0%Qc); bufferIndex := 0;
  chunksProcessed := 0; silentChunks := 0 |}.

(** [sendAudioChunk(maxAmplitude, hasActivity)]: the processor after it and
    the samples it posts.  [maxAmplitude] is only logged. *)
Definition sendAudioChunk (hasActivity : bool) (p : t) : t * list Z :=
  ({| buffer := buffer p; bufferIndex := bufferIndex p;
      chunksProcessed := S (chunksProcessed p);
      silentChunks :=
        if negb hasActivity then S (silentChunks p)
        else if bool_decide (0 < silentChunks p)%nat then 0%nat
        else silentChunks p |},
   float32ToPCM16 (buffer p)).

(** The body of the loop of [process] for one sample: the processor, the
    activity flag and what was posted. *)
Definition store (x : Float) (hasActivity : bool) (p : t)
  : t * bool * list (list Z) :=
  let hasActivity :=
    if gt (abs x) (finite (Q2Qc (1 # 1000))) then true else hasActivity in
  let p := {| buffer := <[bufferIndex p := x]> (buffer p);
              bufferIndex := S (bufferIndex p);
              chunksProcessed := chunksProcessed p;
              silentChunks := silentChunks p |} in
  if bool_decide (chunkSize ≤ bufferIndex p)%nat then
    let '(p, pcmData) := sendAudioChunk hasActivity p in
    ({| buffer := buffer p; bufferIndex := 0;
        chunksProcessed := chunksProcessed p;
        silentChunks := silentChunks p |}, false, [pcmData])
  else (p, hasActivity, []).

Fixpoint loop (channelData : list Float) (hasActivity : bool) (p : t)
  : t * list (list Z) :=
  match channelData with
  | [] => (p, [])
  | x :: channelData =>
      let '(p, hasActivity, posted) := store x hasActivity p in
      let '(p, later) := loop channelData hasActivity p in
      (p, posted ++ later)
  end.

(** [process(inputs)]: [inputs] by input and channel. *)
Definition process (inputs : list (list (list Float))) (p : t)
  : t * list (list Z) :=
  match inputs !! 0%nat with
  | None | Some [] => (p, [])
  | Some (channelData :: _) => loop channelData false p
  end.

(** The first channel of the first input. *)
Definition heard (inputs : list (list (list Float))) : list Float :=
  default [] (inputs !! 0%nat ≫= (.!! 0%nat)).

(** The samples stored since the last chunk was posted. *)
Definition waiting (p : t) : list Float := take (bufferIndex p) (buffer p).

(** The state [process] keeps the processor in. *)
Definition Ready (p : t) : Prop :=
  length (buffer p) = chunkSize ∧ (bufferIndex p < chunkSize)%nat.

End PCMCaptureProcessor.

(** ** What the hooks derive from the log (hooks/useVoice.ts) *)

Module Hooks.
Import VoiceProvider.

(** [useVoiceTurnDetection]: [isUserSpeaking]. *)
Definition isUserSpeaking (ms : list VoiceMessage) : bool :=
  existsb (λ msg, is_type MessageType.user msg && streaming msg) (reverse ms).

(** [useVoiceMessages]: [hasStreamingMessages]. *)
Definition hasStreamingMessages (ms : list VoiceMessage) : bool :=
  existsb streaming ms.

(** Callbacks of the socket one after another, each with the state its
    render saw and with its own reads. *)
Definition later (rt : Runtime) (events : list (VoiceState * Env * Signal))
    (p : t) : t :=
  foldl (λ p ev, wsEvents rt ev.1.1 ev.1.2 ev.2 p) p events.

(** The id held in [currentStreamingMessageId] came from
    [generateMessageId]. *)
Definition Tracked (p : t) : Prop :=
  ∀ i, currentStreamingMessageId p = Some i → ∃ e, i = generateMessageId e.

(** The log holds a streaming user message that the reducer created. *)
Definition Speaking (ms : list VoiceMessage) : Prop :=
  ∃ msg c, msg ∈ ms ∧ is_type MessageType.user msg = true ∧
           streaming msg = true ∧ id msg = streaming_id c.

(** The actions the callbacks of the socket dispatch. *)
Definition dispatched (a : VoiceAction) : Prop :=
  match a with
  | CLEAR_MESSAGES | RESET_STATE | UPDATE_MESSAGE_METADATA _ _ => False
  | FINALIZE_STREAMING_MESSAGE i _ => ∃ e, i = generateMessageId e
  | _ => True
  end.

End Hooks.

(** * Properties *)

Section Reducer.
Context (rt : Runtime) (seen : VoiceState).

(** C10: whatever state a connection-state change announces (Connecting,
    Connected, Disconnected or Error), the callback leaves the announced
    state in [readyState], [null] in the error field and no idle-warning
    snapshot: both are wiped on every transition. *)
Theorem state_change_wipes_error_and_idle_warning
    (e : Env) (target : ConnectionState.t) (p : VoiceProvider.t) :
  let p' := VoiceProvider.wsEvents rt seen e (onStateChange target) p in
  readyState (VoiceProvider.state p') = target ∧
  error (VoiceProvider.state p') = JS.null ∧
  idleWarning (VoiceProvider.state p') = None ∧
  messages (VoiceProvider.state p') = messages (VoiceProvider.state p).
Proof. by destruct target. Qed.
End Reducer.

(** ** Teardown *)

Section Teardown.
Context (rt : Runtime).

Lemma run_refs (e : Env) (actions : list VoiceAction) (p : VoiceProvider.t) :
  VoiceProvider.audioManagerRef (VoiceProvider.run e actions p)
    = VoiceProvider.audioManagerRef p ∧
  VoiceProvider.wsManagerRef (VoiceProvider.run e actions p)
    = VoiceProvider.wsManagerRef p.
Proof. done. Qed.

(** No callback of the socket gives the provider an audio manager. *)
Lemma wsEvents_no_audio (seen : VoiceState) (e : Env) (s : Signal)
    (p : VoiceProvider.t) :
  VoiceProvider.audioManagerRef p = None →
  VoiceProvider.audioManagerRef (VoiceProvider.wsEvents rt seen e s p) = None.
Proof.
  intros Hnone. destruct s; simpl; try done.
  - unfold VoiceProvider.handle_onTranscription. by repeat case_match.
  - unfold VoiceProvider.handle_onTTSChunk. by rewrite Hnone.
  - unfold VoiceProvider.handle_onLLMChunk. by repeat case_match.
  - unfold VoiceProvider.handle_onTurnComplete. by repeat case_match.
Qed.

Lemma deliver_no_audio (seen : VoiceState) (e : Env) (signals : list Signal)
    (p : VoiceProvider.t) :
  VoiceProvider.audioManagerRef p = None →
  VoiceProvider.audioManagerRef (VoiceProvider.deliver rt seen e signals p) = None.
Proof.
  revert p. induction signals as [| s signals IH]; intros p Hnone; [done |].
  apply IH. by apply wsEvents_no_audio.
Qed.

(** After [disconnect] the provider is as the first render left it. *)
Lemma disconnect_mount (seen : VoiceState) (e : Env) (p : VoiceProvider.t) :
  (VoiceProvider.disconnect rt seen e p).1 = VoiceProvider.mount.
Proof.
  unfold VoiceProvider.disconnect, VoiceProvider.cleanup.
  set (p1 := match VoiceProvider.audioManagerRef p with
             | Some a => _ | None => _ end).
  assert (Haudio : VoiceProvider.audioManagerRef p1.1 = None).
  { subst p1. by destruct (VoiceProvider.audioManagerRef p) eqn:Ha. }
  destruct p1 as [p1 fx1]; simpl in Haudio.
  destruct (VoiceProvider.wsManagerRef p1) as [m |] eqn:Hws.
  - unfold VoiceProvider.manager. rewrite Hws.
    destruct (WebSocketManager.disconnect m) as [m' fx] eqn:Hd. simpl.
    unfold VoiceProvider.mount, VoiceProvider.run,
      VoiceProvider.set_state, VoiceProvider.set_currentStreamingMessageId.
    simpl. f_equal.
    by apply deliver_no_audio.
  - simpl. unfold VoiceProvider.mount, VoiceProvider.run,
      VoiceProvider.set_state, VoiceProvider.set_currentStreamingMessageId.
    simpl. by rewrite Hws, Haudio.
Qed.

(** C8: calling [disconnect()] twice in a row, from any state of the
    provider, ends normally both times; the second call releases nothing
    (no socket is closed, no audio resource is freed, no callback runs) and
    leaves the provider exactly as the first call left it. *)
Theorem disconnect_idempotent
    (seen1 seen2 : VoiceState) (e1 e2 : Env) (p : VoiceProvider.t) :
  let after_one := (VoiceProvider.disconnect rt seen1 e1 p).1 in
  VoiceProvider.disconnect rt seen2 e2 after_one = (after_one, []).
Proof. simpl. by rewrite disconnect_mount. Qed.

End Teardown.

(** ** Closures and reconnection *)

Section Transport.
Import WebSocketManager.

#[local] Ltac cmd_unfold :=
  unfold handleClose, handleError, handleOpen, attemptReconnection, connect,
    reconnectTimer, connectTimeout, disconnect, setConnectionState,
    notifyStateChange, seq, branch, modify, perform, skip, backoff in *.

(** The wrappers call no callback and set no timer. *)
Lemma settled_unobserved {A} (f : Effect → option A) (n : nat) (outcome : Effect) :
  f connect_timeout_cleared = None → f outcome = None →
  omap f (settled n outcome) = [].
Proof.
  intros Hcleared Houtcome. induction n as [| n IH]; [done |].
  simpl. by rewrite Hcleared, Houtcome.
Qed.

(** [setConnectionState] reaches the state asked for, tells the callback
    only of a change, and touches nothing the retry policy reads. *)
Lemma setConnectionState_spec (s : ConnectionState.t) (m : t) :
  let r := setConnectionState s m in
  connectionState r.1 = s ∧
  reconnectAttempts r.1 = reconnectAttempts m ∧
  maxReconnectAttempts r.1 = maxReconnectAttempts m ∧
  reconnectDelay r.1 = reconnectDelay m ∧
  config r.1 = config m ∧
  websocket r.1 = websocket m ∧
  Observe.errors r.2 = [] ∧
  Observe.reconnects r.2 = [] ∧
  Observe.stateChanges r.2 = (if decide (connectionState m = s) then [] else [s]).
Proof.
  cmd_unfold. unfold settle.
  case_bool_decide as Hne; case_decide; try done; simpl.
  destruct s; simpl; try done; destruct (connectPending m) as [| n]; simpl;
    try done.
  all: unfold Observe.errors, Observe.reconnects, Observe.stateChanges; simpl.
  all: by rewrite !settled_unobserved.
Qed.

Lemma handleClose_eq (code : Z) (reason : string) (m : t) :
  handleClose code reason m =
    (if bool_decide (code = 1000) then
       setConnectionState ConnectionState.Disconnected
     else if bool_decide (4000 ≤ code) then
       seq (setConnectionState ConnectionState.Error)
           (perform (emit (onError (closedError code reason))))
     else attemptReconnection) (set_websocket m None).
Proof.
  unfold handleClose, seq at 1, modify.
  match goal with |- (let '(_, _) := ?c in _) = _ => by destruct c end.
Qed.

(** With attempts left and a configuration kept, [attemptReconnection]
    counts the attempt and sets the timer, and nothing else. *)
Lemma attemptReconnection_retry (m : t) :
  reconnectAttempts m < maxReconnectAttempts m → config m ≠ None →
  attemptReconnection m =
    (set_reconnectAttempts m (reconnectAttempts m + 1),
     [reconnect_in (reconnectDelay m * 2 ^ reconnectAttempts m)]).
Proof.
  intros Hleft Hcfg. cmd_unfold.
  assert (¬ maxReconnectAttempts m ≤ reconnectAttempts m) as Hmax by lia.
  rewrite (bool_decide_eq_false_2 _ Hmax), (bool_decide_eq_false_2 _ Hcfg).
  simpl. by replace (reconnectAttempts m + 1 - 1) with (reconnectAttempts m) by lia.
Qed.

(** Without, it ends in Error and reports the exhausted retries. *)
Lemma attemptReconnection_exhausted (m : t) :
  maxReconnectAttempts m ≤ reconnectAttempts m ∨ config m = None →
  let r := attemptReconnection m in
  connectionState r.1 = ConnectionState.Error ∧
  reconnectAttempts r.1 = reconnectAttempts m ∧
  maxReconnectAttempts r.1 = maxReconnectAttempts m ∧
  reconnectDelay r.1 = reconnectDelay m ∧
  config r.1 = config m ∧
  Observe.errors r.2 = [maxReconnectExceeded] ∧
  Observe.reconnects r.2 = [].
Proof.
  intros Hout. unfold attemptReconnection, branch.
  replace (bool_decide (maxReconnectAttempts m ≤ reconnectAttempts m)
           || bool_decide (config m = None)) with true; last first.
  { symmetry. apply orb_true_iff.
    destruct Hout; [left | right]; by apply bool_decide_eq_true_2. }
  unfold seq, perform.
  pose proof (setConnectionState_spec ConnectionState.Error m) as H.
  destruct (setConnectionState _ _) as [m' fx]; simpl in *.
  destruct H as (? & ? & ? & ? & ? & ? & Herr & Hrec & ?).
  unfold Observe.errors, Observe.reconnects in *.
  by rewrite !omap_app, Herr, Hrec.
Qed.

(** C6: a socket closure with code 1000 ends in Disconnected and reports no
    error; with a code of 4000 or more it ends in Error, reports exactly one
    error, whose message is "Connection closed: " followed by the reason
    the server gave and whose details are the code and that reason, and
    sets no reconnection timer; with any other code the reconnection path is taken:
    while attempts remain for the connection (its configuration is kept),
    the connection state is left as it was, no state change and no error is
    reported, and one reconnection timer is set. *)
Theorem close_code_taxonomy (m : t) (code : Z) (reason : string) :
  let r := handleClose code reason m in
  (code = 1000 →
     connectionState r.1 = ConnectionState.Disconnected ∧
     Observe.errors r.2 = [] ∧ Observe.reconnects r.2 = []) ∧
  (4000 ≤ code →
     connectionState r.1 = ConnectionState.Error ∧
     Observe.errors r.2 =
       [ {| NextEVIError.message := "Connection closed: " +:+ reason;
            NextEVIError.code := "WEBSOCKET_ERROR";
            NextEVIError.details_of :=
              NextEVIError.close_details code reason |} ] ∧
     Observe.reconnects r.2 = [] ∧
     reconnectAttempts r.1 = reconnectAttempts m) ∧
  (Observe.abnormal code →
     r = attemptReconnection (set_websocket m None) ∧
     (reconnectAttempts m < maxReconnectAttempts m → config m ≠ None →
        connectionState r.1 = connectionState m ∧
        Observe.stateChanges r.2 = [] ∧ Observe.errors r.2 = [] ∧
        Observe.reconnects r.2 = [reconnectDelay m * 2 ^ reconnectAttempts m] ∧
        reconnectAttempts r.1 = reconnectAttempts m + 1)).
Proof.
  intros r. subst r. rewrite handleClose_eq. split; [| split].
  - intros ->. rewrite bool_decide_eq_true_2 by done.
    pose proof (setConnectionState_spec ConnectionState.Disconnected
                  (set_websocket m None)) as H.
    destruct (setConnectionState _ _) as [m' fx]; simpl in *.
    by destruct H as (? & ? & ? & ? & ? & ? & ? & ? & ?).
  - intros Hge.
    rewrite bool_decide_eq_false_2 by lia.
    rewrite bool_decide_eq_true_2 by done.
    unfold seq, perform.
    pose proof (setConnectionState_spec ConnectionState.Error
                  (set_websocket m None)) as H.
    destruct (setConnectionState _ _) as [m' fx]; simpl in *.
    destruct H as (? & ? & ? & ? & ? & ? & Herr & Hrec & ?).
    unfold Observe.errors, Observe.reconnects in *.
    by rewrite !omap_app, Herr, Hrec.
  - intros [Hne Hlt].
    rewrite bool_decide_eq_false_2 by done.
    rewrite bool_decide_eq_false_2 by lia.
    split; [done |]. intros Hleft Hcfg.
    by rewrite attemptReconnection_retry.
Qed.

(** *** Four closures in a row *)

Lemma run_app (evs1 evs2 : list Trace.SocketEvent) (m : t) :
  Trace.run (evs1 ++ evs2) m =
    ((Trace.run evs2 (Trace.run evs1 m).1).1,
     (Trace.run evs1 m).2 ++ (Trace.run evs2 (Trace.run evs1 m).1).2).
Proof.
  revert m. induction evs1 as [| ev evs1 IH]; intros m; simpl.
  - by destruct (Trace.run evs2 m).
  - unfold seq. destruct (Trace.step ev m) as [m1 fx1]. rewrite IH.
    destruct (Trace.run evs1 m1) as [m2 fx2]; simpl.
    destruct (Trace.run evs2 m2) as [m3 fx3]; simpl.
    by rewrite app_assoc.
Qed.

Lemma connect_quiet (e : Env) (created : bool) (cfg : NextEVIConfig.t) (m : t) :
  Trace.Quiet m (connect e created cfg m).
Proof.
  unfold connect, branch.
  case_bool_decide; [by unfold Trace.Quiet, skip |].
  destruct (isConnecting m); [by unfold Trace.Quiet, skip |].
  unfold seq at 1 2, modify.
  match goal with |- context [setConnectionState ?s ?m0] =>
    pose proof (setConnectionState_spec s m0) as H0;
    destruct (setConnectionState s m0) as [m1 fx1] end.
  simpl in H0. destruct H0 as (_ & Ha & Hm & Hd & Hc & _ & He & Hr & _).
  destruct created.
  - unfold seq, modify, perform. simpl.
    unfold Trace.Quiet, Observe.maxReconnectErrors, Observe.errors,
      Observe.reconnects in *; simpl.
    rewrite !omap_app, He, Hr, Ha, Hm, Hd, Hc. simpl. done.
  - unfold seq at 1, modify.
    pose proof (setConnectionState_spec ConnectionState.Error
                  (set_isConnecting m1 false)) as H0.
    unfold seq, perform.
    destruct (setConnectionState _ _) as [m2 fx2].
    simpl in H0. destruct H0 as (_ & Ha' & Hm' & Hd' & Hc' & _ & He' & Hr' & _).
    unfold Trace.Quiet, Observe.maxReconnectErrors, Observe.errors,
      Observe.reconnects in *; simpl.
    rewrite !omap_app, He, Hr, He', Hr', Ha', Hm', Hd', Hc', Ha, Hm, Hd, Hc.
    simpl. done.
Qed.

Lemma step_quiet (ev : Trace.SocketEvent) (m : t) :
  Trace.between ev → Trace.Quiet m (Trace.step ev m).
Proof.
  destruct ev as [| code reason | | e created |]; simpl; try done; intros _.
  - pose proof (setConnectionState_spec ConnectionState.Error m) as H.
    unfold handleError, seq, perform.
    destruct (setConnectionState _ _) as [m' fx]; simpl in *.
    destruct H as (? & ? & ? & ? & Hcfg & ? & Herr & Hrec & ?).
    unfold Trace.Quiet, Observe.maxReconnectErrors, Observe.errors,
      Observe.reconnects in *; simpl.
    rewrite !omap_app, Herr, Hrec, Hcfg. done.
  - unfold reconnectTimer. destruct (config m) as [cfg |] eqn:Hcfg;
      [| by unfold Trace.Quiet, skip; simpl].
    apply connect_quiet.
Qed.

Lemma run_quiet (evs : list Trace.SocketEvent) (m : t) :
  Forall Trace.between evs → Trace.Quiet m (Trace.run evs m).
Proof.
  intros Hevs. revert m.
  induction Hevs as [| ev evs Hev _ IH]; intros m; simpl.
  - by unfold Trace.Quiet, skip.
  - unfold seq. pose proof (step_quiet ev m Hev) as H1.
    destruct (Trace.step ev m) as [m1 fx1].
    pose proof (IH m1) as H2.
    destruct (Trace.run evs m1) as [m2 fx2].
    unfold Trace.Quiet, Observe.maxReconnectErrors, Observe.errors,
      Observe.reconnects in *; simpl in *.
    destruct H1 as (Ha1 & Hm1 & Hd1 & Hc1 & Hr1 & He1).
    destruct H2 as (Ha2 & Hm2 & Hd2 & Hc2 & Hr2 & He2).
    rewrite !omap_app, list.filter_app, Hr1, Hr2, He1, He2.
    repeat split; [congruence .. | auto].
Qed.

(** A failing attempt that ends in an abnormal closure while attempts
    remain: one more attempt is counted and one timer set. *)
Lemma failing_attempt_retry (evs : list Trace.SocketEvent) (code : Z)
    (reason : string) (m : t) :
  Forall Trace.between evs → Observe.abnormal code →
  config m ≠ None → reconnectAttempts m < maxReconnectAttempts m →
  let r := Trace.run (evs ++ [Trace.closed code reason]) m in
  reconnectAttempts r.1 = reconnectAttempts m + 1 ∧
  maxReconnectAttempts r.1 = maxReconnectAttempts m ∧
  reconnectDelay r.1 = reconnectDelay m ∧
  config r.1 ≠ None ∧
  Observe.reconnects r.2 = [reconnectDelay m * 2 ^ reconnectAttempts m] ∧
  Observe.maxReconnectErrors r.2 = [].
Proof.
  intros Hevs [Hne Hlt] Hcfg Hleft r. subst r. rewrite run_app.
  pose proof (run_quiet evs m Hevs) as Hq.
  destruct (Trace.run evs m) as [m1 fx1].
  destruct Hq as (Ha & Hm & Hd & Hc & Hr & He); simpl in *.
  unfold seq, skip. rewrite handleClose_eq.
  rewrite (bool_decide_eq_false_2 _ Hne).
  rewrite bool_decide_eq_false_2 by lia.
  rewrite attemptReconnection_retry by (simpl; first [lia | auto]).
  unfold Observe.maxReconnectErrors, Observe.errors, Observe.reconnects in *.
  simpl. rewrite !omap_app, list.filter_app, Hr, He, Ha, Hd. simpl.
  repeat split; auto.
Qed.

(** The same once the attempts are used up: Error, and one report. *)
Lemma failing_attempt_exhausted (evs : list Trace.SocketEvent) (code : Z)
    (reason : string) (m : t) :
  Forall Trace.between evs → Observe.abnormal code →
  maxReconnectAttempts m ≤ reconnectAttempts m →
  let r := Trace.run (evs ++ [Trace.closed code reason]) m in
  connectionState r.1 = ConnectionState.Error ∧
  Observe.reconnects r.2 = [] ∧
  Observe.maxReconnectErrors r.2 = [maxReconnectExceeded].
Proof.
  intros Hevs [Hne Hlt] Hout r. subst r. rewrite run_app.
  pose proof (run_quiet evs m Hevs) as Hq.
  destruct (Trace.run evs m) as [m1 fx1].
  destruct Hq as (Ha & Hm & Hd & Hc & Hr & He); simpl in *.
  unfold seq, skip. rewrite handleClose_eq.
  rewrite (bool_decide_eq_false_2 _ Hne).
  rewrite bool_decide_eq_false_2 by lia.
  pose proof (attemptReconnection_exhausted (set_websocket m1 None)) as Hx.
  simpl in Hx. destruct Hx as (Hs & _ & _ & _ & _ & Herr & Hrec); [left; lia |].
  destruct (attemptReconnection _) as [m2 fx2]; simpl in *.
  unfold Observe.maxReconnectErrors, Observe.errors, Observe.reconnects in *.
  rewrite !omap_app, list.filter_app, Hr, He, Hrec. simpl.
  rewrite app_nil_r, Herr. done.
Qed.

(** C5: take a connection with at most three reconnection attempts, none of
    them used and its configuration kept.  Let its socket close abnormally
    (code neither 1000 nor 4000 or more) four times, with any socket errors,
    reconnection-timer and connect-timeout events in between, but no
    successful open.  After the fourth closure the connection state is
    Error, exactly one report of exhausted retries has been handed to the
    error callback, and the three attempts were scheduled with the delays
    base x 2^(k-1) for k = 1, 2, 3. *)
Theorem reconnection_bound
    (m : t) (evs0 evs1 evs2 evs3 : list Trace.SocketEvent)
    (c1 c2 c3 c4 : Z) (r1 r2 r3 r4 : string) :
  maxReconnectAttempts m = 3 → reconnectAttempts m = 0 → config m ≠ None →
  Observe.abnormal c1 → Observe.abnormal c2 →
  Observe.abnormal c3 → Observe.abnormal c4 →
  Forall Trace.between evs0 → Forall Trace.between evs1 →
  Forall Trace.between evs2 → Forall Trace.between evs3 →
  let r := Trace.run (evs0 ++ Trace.closed c1 r1 :: evs1 ++ Trace.closed c2 r2 ::
                      evs2 ++ Trace.closed c3 r3 :: evs3 ++ [Trace.closed c4 r4]) m in
  connectionState r.1 = ConnectionState.Error ∧
  length (Observe.maxReconnectErrors r.2) = 1%nat ∧
  Observe.reconnects r.2 = (λ k, reconnectDelay m * 2 ^ (k - 1)) <$> [1; 2; 3].
Proof.
  intros Hmax Hzero Hcfg Hc1 Hc2 Hc3 Hc4 H0 H1 H2 H3 r. subst r.
  replace (evs0 ++ Trace.closed c1 r1 :: evs1 ++ Trace.closed c2 r2 ::
           evs2 ++ Trace.closed c3 r3 :: evs3 ++ [Trace.closed c4 r4])
    with ((evs0 ++ [Trace.closed c1 r1]) ++ (evs1 ++ [Trace.closed c2 r2]) ++
          (evs2 ++ [Trace.closed c3 r3]) ++ (evs3 ++ [Trace.closed c4 r4]))
    by (by rewrite <- !app_assoc).
  rewrite run_app.
  pose proof (failing_attempt_retry evs0 c1 r1 m H0 Hc1 Hcfg) as S1.
  destruct (Trace.run (evs0 ++ _) m) as [m1 fx1]; simpl in *.
  destruct S1 as (Ha1 & Hm1 & Hd1 & Hcfg1 & Hr1 & He1); [lia |].
  rewrite run_app.
  pose proof (failing_attempt_retry evs1 c2 r2 m1 H1 Hc2 Hcfg1) as S2.
  destruct (Trace.run (evs1 ++ _) m1) as [m2 fx2]; simpl in *.
  destruct S2 as (Ha2 & Hm2 & Hd2 & Hcfg2 & Hr2 & He2); [lia |].
  rewrite run_app.
  pose proof (failing_attempt_retry evs2 c3 r3 m2 H2 Hc3 Hcfg2) as S3.
  destruct (Trace.run (evs2 ++ _) m2) as [m3 fx3]; simpl in *.
  destruct S3 as (Ha3 & Hm3 & Hd3 & Hcfg3 & Hr3 & He3); [lia |].
  pose proof (failing_attempt_exhausted evs3 c4 r4 m3 H3 Hc4) as S4.
  destruct (Trace.run (evs3 ++ _) m3) as [m4 fx4]; simpl in *.
  destruct S4 as (Hs4 & Hr4 & He4); [lia |].
  split; [done |].
  unfold Observe.maxReconnectErrors, Observe.errors, Observe.reconnects in *.
  rewrite !omap_app, !list.filter_app, He1, He2, He3, He4, Hr1, Hr2, Hr3, Hr4.
  split; [done |]. simpl.
  rewrite Hd2, Hd1, Ha2, Ha1, Hzero. done.
Qed.

End Transport.

(** ** Frames the router does not know *)

Section UnknownFrames.
Context (rt : Runtime) (seen : VoiceState).

Lemma routeMessage_unrecognized (e : Env) (message : JSON.json) :
  Observe.recognizedTag message = false →
  Router.routeMessage e message = Router.emits [] ∨
  Router.routeMessage e message = Router.throws.
Proof.
  unfold Observe.recognizedTag, Router.routeMessage. intros Hunknown.
  destruct message; [by right | left ..];
    destruct (JSON.prop "type" _) as [[| | | tag | |] |]; try done.
  all: apply bool_decide_eq_false in Hunknown.
  all: unfold Router.recognized in Hunknown.
  all: rewrite !not_elem_of_cons in Hunknown.
  all: destruct Hunknown as (? & ? & ? & ? & ? & ? & ? & ? & ? & ? & ? & _).
  all: by rewrite !(proj2 (String.eqb_neq tag _)).
Qed.

(** C9: a frame that does not parse as JSON, and a frame that parses but
    whose [type] is none of the message types the router knows, is dropped:
    handling it ends normally and leaves the whole provider as it was, the
    message log and both records of the connection state (the reducer's
    [readyState] and the manager's [connectionState]) included. *)
Theorem unknown_frame_dropped
    (e : Env) (data : Router.MessageData) (p : VoiceProvider.t) :
  (∀ message, Router.parse (JSON_parse rt) data = Some message →
              Observe.recognizedTag message = false) →
  VoiceProvider.onmessage rt seen e data p = VoiceProvider.returns p.
Proof.
  intros Hunknown. unfold VoiceProvider.onmessage, Router.handleMessage.
  destruct (Router.parse _ data) as [message |] eqn:Hparse; [| done].
  by destruct (routeMessage_unrecognized e message (Hunknown _ eq_refl))
    as [-> | ->].
Qed.

End UnknownFrames.

(** ** Emotions *)

Section Emotions.
Context (rt : Runtime) (seen : VoiceState).

Lemma lastUserMessageIndex_snoc (ms : list VoiceMessage) (x : VoiceMessage) :
  lastUserMessageIndex (ms ++ [x]) =
    if user_without_emotions x then Some (length ms) else lastUserMessageIndex ms.
Proof.
  unfold lastUserMessageIndex, JS.find_last.
  rewrite imap_app, reverse_app. simpl.
  rewrite Nat.add_0_r. by destruct (user_without_emotions x).
Qed.

(** The index found is that of the last user message without emotions. *)
Lemma lastUserMessageIndex_Some (ms : list VoiceMessage) (i : nat) :
  lastUserMessageIndex ms = Some i →
  ∃ m, ms !! i = Some m ∧ user_without_emotions m = true ∧
       ∀ j m', (i < j)%nat → ms !! j = Some m' → user_without_emotions m' = false.
Proof.
  revert i. induction ms as [| x ms IH] using rev_ind; intros i; [done |].
  rewrite lastUserMessageIndex_snoc.
  destruct (user_without_emotions x) eqn:Hx.
  - intros [= <-]. exists x. split; [by rewrite list_lookup_middle |].
    split; [done |]. intros j m' Hj Hlook.
    apply lookup_lt_Some in Hlook. rewrite length_app in Hlook. simpl in Hlook. lia.
  - intros Hfound. destruct (IH i Hfound) as (m & Hm & Hok & Hlater).
    exists m. split; [by apply lookup_app_l_Some |]. split; [done |].
    intros j m' Hj Hlook.
    apply lookup_app_Some in Hlook as [Hl | [Hge Hr]]; [by eapply Hlater |].
    destruct (j - length ms)%nat; simpl in Hr; [by simplify_eq | done].
Qed.

Lemma lastUserMessageIndex_None (ms : list VoiceMessage) :
  lastUserMessageIndex ms = None ↔
  ∀ m, m ∈ ms → user_without_emotions m = false.
Proof.
  induction ms as [| x ms IH] using rev_ind.
  - split; [by intros _ m ?%elem_of_nil | done].
  - rewrite lastUserMessageIndex_snoc.
    destruct (user_without_emotions x) eqn:Hx.
    + split; [done |]. intros Hall.
      rewrite (Hall x) in Hx; [done |].
      apply elem_of_app. right. by apply list_elem_of_singleton.
    + rewrite IH. split.
      * intros Hall m [Hin | ->%list_elem_of_singleton]%elem_of_app; auto.
      * intros Hall m Hin. apply Hall. apply elem_of_app. by left.
Qed.

(** C7: an emotion batch reaching the state machine is attached to the most
    recent user message that carries no emotions, where there is one: that
    message gets the emotions and keeps everything else, the other messages
    are untouched.  Where every user message has emotions already, or
    there is no user message, the log is unchanged.  The step always ends
    normally, and touches nothing but the log. *)
Theorem emotion_batch_attachment
    (e : Env) (es : list EmotionData) (p : VoiceProvider.t) :
  let ms := messages (VoiceProvider.state p) in
  let p' := VoiceProvider.wsEvents rt seen e (onEmotion es) p in
  let ms' := messages (VoiceProvider.state p') in
  ((∃ m, m ∈ ms ∧ user_without_emotions m = true) →
     ∃ i m,
       ms !! i = Some m ∧ user_without_emotions m = true ∧
       (∀ j m', (i < j)%nat → ms !! j = Some m' → user_without_emotions m' = false) ∧
       ms' = <[i := set_metadata m (with_emotions es (spread (metadata m)))]> ms ∧
       ((ms' !! i ≫= metadata) ≫= emotions) = Some es) ∧
  ((∀ m, m ∈ ms → user_without_emotions m = false) → ms' = ms) ∧
  p' = VoiceProvider.set_state p (set_messages (VoiceProvider.state p) ms').
Proof.
  simpl. unfold add_emotions_to_latest_user_message.
  split; [| split]; [| | done].
  - intros (m0 & Hin & Hm0).
    destruct (lastUserMessageIndex _) as [i |] eqn:Hfound.
    + destruct (lastUserMessageIndex_Some _ _ Hfound) as (m & Hm & Hok & Hlater).
      exists i, m. rewrite Hm. repeat split; try done.
      rewrite list_lookup_insert_eq by by eapply lookup_lt_Some. done.
    + rewrite lastUserMessageIndex_None in Hfound.
      by rewrite (Hfound m0 Hin) in Hm0.
  - intros Hall. apply lastUserMessageIndex_None in Hall. by rewrite Hall.
Qed.

End Emotions.

(** ** Streaming messages *)

Section Streaming.
Import VoiceProvider.

(** A message pushed by [UPDATE_STREAMING_MESSAGE]. *)
Lemma update_streaming_message_push (c : Clock) (ms : list VoiceMessage)
    (text : string) (lane : MessageType.t) :
  (∀ m, list.last ms = Some m → is_type lane m && streaming m = false) →
  update_streaming_message c ms text lane =
    ms ++ [ {| id := streaming_id c; type := lane; content := text;
               timestamp := date c;
               metadata := Some (with_isStreaming true noMetadata) |} ].
Proof.
  intros Hlast. unfold update_streaming_message.
  replace (Z.to_nat (Z.of_nat (length ms) - 1)) with (pred (length ms)) by lia.
  rewrite <- last_lookup.
  destruct (list.last ms) as [m |]; [| done].
  rewrite <- andb_assoc, (Hlast m eq_refl). by rewrite andb_false_r.
Qed.

(** The streaming message of the lane, when it is the last one, is
    rewritten in place. *)
Lemma update_streaming_message_rewrite (c : Clock) (ms : list VoiceMessage)
    (m : VoiceMessage) (text : string) (lane : MessageType.t) :
  is_type lane m = true → streaming m = true →
  update_streaming_message c (ms ++ [m]) text lane =
    ms ++ [set_content_timestamp m text (date c)].
Proof.
  intros Hlane Hstreaming. unfold update_streaming_message.
  rewrite length_app. simpl.
  replace (Z.to_nat (Z.of_nat (length ms + 1) - 1)) with (length ms + 0)%nat by lia.
  rewrite lookup_app_r, Nat.add_0_r, Nat.sub_diag by lia. simpl.
  rewrite Hlane, Hstreaming, bool_decide_eq_true_2 by lia. simpl.
  replace (length ms) with (length ms + 0)%nat at 1 by lia.
  by rewrite insert_app_r.
Qed.

(** The part of C1 that the code keeps: interim transcripts with text left
    after trimming, arriving one after the other while the log does not end
    in a streaming user message, add one streaming user message, whose
    text is that of the last of them. *)
Lemma interim_transcripts_coalesce (first : Env * string)
    (more : list (Env * string)) (p : t) :
  (∀ m, list.last (messages (state p)) = Some m →
        is_type MessageType.user m && streaming m = false) →
  Forall (λ ev, JS.truthy_string (JS.trim ev.2) = true) (first :: more) →
  ∃ m, messages (state (Example.interims (first :: more) p)) = messages (state p) ++ [m] ∧
       id m = streaming_id (reducerClock first.1) ∧
       type m = MessageType.user ∧ streaming m = true ∧
       content m = (default first (list.last more)).2.
Proof.
  intros Hlast Hspoken. inversion_clear Hspoken as [| ? ? Hfirst Hmore].
  unfold Example.interims. simpl.
  set (p1 := handle_onTranscription first.1 (Example.interim first.2) p).
  assert (H1 : ∃ m, messages (state p1) = messages (state p) ++ [m] ∧
                    id m = streaming_id (reducerClock first.1) ∧
                    type m = MessageType.user ∧ streaming m = true ∧
                    content m = first.2).
  { subst p1. unfold handle_onTranscription. simpl. rewrite Hfirst. simpl.
    rewrite update_streaming_message_push by done. by eexists. }
  clearbody p1. clear Hlast Hfirst.
  revert first p1 H1.
  induction Hmore as [| ev more Hev _ IH]; intros first p1 H1; [done |].
  simpl. destruct H1 as (m & Hms & Hid & Htype & Hstr & Hcontent).
  set (p2 := handle_onTranscription ev.1 (Example.interim ev.2) p1).
  assert (H2 : ∃ m, messages (state p2) = messages (state p) ++ [m] ∧
                    id m = streaming_id (reducerClock first.1) ∧
                    type m = MessageType.user ∧ streaming m = true ∧
                    content m = ev.2).
  { subst p2. unfold handle_onTranscription. simpl. rewrite Hev. simpl.
    rewrite Hms, update_streaming_message_rewrite;
      [by eexists | by apply bool_decide_eq_true_2 | done]. }
  clearbody p2.
  destruct (IH (first.1, ev.2) p2) as (m' & ? & ? & ? & ? & Hc');
    [done |].
  exists m'. repeat split; try done.
  rewrite Hc'. destruct more as [| x more _] using rev_ind; [done |].
  by rewrite app_comm_cons, !last_snoc.
Qed.

(** The two id generators never give the same id: one starts with
    [msg_], the other with [streaming_]. *)
Lemma generated_id_not_streaming (e : Env) (c : Clock) :
  generateMessageId e ≠ streaming_id c.
Proof.
  unfold generateMessageId, streaming_id. intros Heq.
  apply (f_equal (λ s, match s with String a _ => Some a | EmptyString => None end))
    in Heq.
  discriminate Heq.
Qed.

(** C1, where the code departs from it: an interim transcript ["hello"]
    followed by the final transcript ["hello world"].  The interim one adds
    a streaming user message.  The final one does not finalize it: it
    appends a second user message under a new id and leaves the first
    streaming, so the log holds two user messages, one of them streaming
    for good. *)
Theorem final_transcript_appends (e1 e2 : Env) (c : JS.number) :
  let p1 := handle_onTranscription e1 (Example.interim "hello") mount in
  let p2 := handle_onTranscription e2
              (Example.transcription true "hello world" c) p1 in
  ∃ partial final,
    messages (state p1) = [partial] ∧
    messages (state p2) = [partial; final] ∧
    Observe.ofType MessageType.user (messages (state p2)) = [partial; final] ∧
    Observe.streamingOf MessageType.user (messages (state p2)) = [partial] ∧
    content partial = "hello" ∧ content final = "hello world" ∧
    id partial = streaming_id (reducerClock e1) ∧
    id final = generateMessageId e2 ∧ id final ≠ id partial ∧
    isWaitingForResponse (state p2) = true.
Proof.
  simpl. do 2 eexists. repeat split. apply generated_id_not_streaming.
Qed.

(** C2, where the code departs from it: a non-final LLM chunk followed by
    the final one, from the first render on.  The non-final chunk adds a
    streaming assistant message under the id [streaming_...] and remembers
    an id [msg_...]; the final chunk finalizes the message of the
    remembered id, which is none: the log is left as it was, the message
    still streaming with the text of the non-final chunk.  The wait for a
    response ends as specified. *)
Theorem final_chunk_finalizes_nothing (e1 e2 : Env) (text1 text2 : string) :
  let p1 := handle_onLLMChunk e1 (Example.chunk false text1) mount in
  let p2 := handle_onLLMChunk e2 (Example.chunk true text2) p1 in
  ∃ reply,
    messages (state p1) = [reply] ∧
    messages (state p2) = [reply] ∧
    type reply = MessageType.assistant ∧
    streaming reply = true ∧ content reply = text1 ∧
    id reply = streaming_id (reducerClock e1) ∧
    currentStreamingMessageId p1 = Some (generateMessageId e1) ∧
    isWaitingForResponse (state p2) = false.
Proof.
  simpl. eexists. repeat split.
Qed.

End Streaming.

(** ** Interruption and turn completion *)

Section Interruption.
Import VoiceProvider.
Context (rt : Runtime) (seen : VoiceState).

(** [clearTTSBuffer] leaves nothing queued, whatever was queued before. *)
Lemma clearTTSBuffer_empties (a : AudioManager.t) :
  AudioManager.queued (AudioManager.clearTTSBuffer a) = [].
Proof.
  unfold AudioManager.queued, AudioManager.clearTTSBuffer, AudioManager.postMessage.
  by destruct (AudioManager.ttsWorkletNode a) eqn:Hnode; simpl; rewrite ?Hnode.
Qed.

(** It changes nothing where nothing is queued and nothing plays. *)
Lemma clearTTSBuffer_idle (a : AudioManager.t) :
  AudioManager.ttsWorkletNode a = Some TTSPlaybackProcessor.create ∨
  AudioManager.ttsWorkletNode a = None →
  AudioManager.clearTTSBuffer a = a.
Proof.
  unfold AudioManager.clearTTSBuffer, AudioManager.postMessage,
    AudioManager.set_ttsWorkletNode.
  by intros [Hnode | Hnode]; rewrite Hnode; destruct a; simpl in *; subst.
Qed.

(** The interruption callback reaches the reducer only. *)
Lemma interruption_flag_only (e : Env) (i : InterruptionMessage.t) (p : t) :
  wsEvents rt seen e (onInterruption i) p =
    set_state p (set_isTTSPlaying (state p) false).
Proof. done. Qed.

(** C3, where the code departs from it: an interruption frame arrives
    while a block of synthesized audio is queued for playback.  The flag
    [isTTSPlaying] becomes false, as specified; the audio manager is
    not called at all, so the block stays queued, whereas [clearTTSBuffer],
    the operation meant for interruptions, would have dropped it. *)
Theorem interruption_keeps_queued_audio (e : Env) :
  ∃ p',
    receive rt seen e (Example.frame "tts_interruption") Example.session
      = returns p' ∧
    isTTSPlaying (state Example.session) = true ∧
    isTTSPlaying (state p') = false ∧
    audioManagerRef p' = Some Example.speaking ∧
    AudioManager.queued Example.speaking = [[12; -7; 30]] ∧
    AudioManager.queued (AudioManager.clearTTSBuffer Example.speaking) = [].
Proof. eexists. by repeat split. Qed.

(** A turn completion that matches no user message of the log the callback
    sees changes nothing. *)
Lemma turn_complete_without_match (e : Env) (turn : TurnCompleteMessage.t) (p : t) :
  (∀ m, JS.find_last (is_type MessageType.user) (messages seen) = Some m →
        content m ≠ JS.trim (TurnCompleteMessage.transcript turn)) →
  wsEvents rt seen e (onTurnComplete turn) p = p.
Proof.
  intros Hnone. simpl. unfold handle_onTurnComplete.
  destruct (_ && _); [| done].
  destruct (JS.find_last _ _) as [m |]; [| done].
  by rewrite (proj2 (String.eqb_neq _ _) (Hnone m eq_refl)).
Qed.

End Interruption.

Section TurnComplete.
Import VoiceProvider.

(** C4, where the code departs from it: the log holds the user message
    ["hello"] and a turn completion with the transcript ["hello"] arrives.
    The message is not updated: a second user message with the same text
    and the turn data is appended under a new id, and the message in the
    log keeps its metadata without any turn data. *)
Theorem turn_complete_appends_copy (e : Env) :
  let p := set_state mount (set_messages initialState [Example.hello]) in
  let p' := handle_onTurnComplete (state p) e (Example.turn "hello") p in
  ∃ copy,
    messages (state p') = [Example.hello; copy] ∧
    id copy = generateMessageId e ∧
    type copy = MessageType.user ∧ content copy = "hello" ∧
    (metadata copy ≫= turnResult) =
      Some (TurnCompleteMessage.turnResult (Example.turn "hello")) ∧
    (metadata copy ≫= turnComplete) = Some true ∧
    (metadata Example.hello ≫= turnResult) = None ∧
    (metadata Example.hello ≫= turnComplete) = None.
Proof. eexists. by repeat split. Qed.

End TurnComplete.

(** ** The statements at sample inputs *)

Section Instances.
Import WebSocketManager.

(** A connection that closes abnormally four times: after each of the first
    three closures the socket reports an error, the backoff timer fires and
    a new socket is created. *)
Lemma reconnection_bound_witness :
  let retry := [Trace.failed; Trace.reconnectTimerFired (Example.env 7) true] in
  let r := Trace.run ([] ++ Trace.closed 1006 "" :: retry ++ Trace.closed 1006 "" ::
                      retry ++ Trace.closed 1001 "going away" ::
                      retry ++ [Trace.closed 1006 ""]) Example.connected in
  connectionState r.1 = ConnectionState.Error ∧
  length (Observe.maxReconnectErrors r.2) = 1%nat ∧
  Observe.reconnects r.2 = [1000; 2000; 4000].
Proof.
  intros retry.
  apply (reconnection_bound Example.connected [] retry retry retry
           1006 1006 1001 1006 "" "" "going away" "").
  - reflexivity.
  - reflexivity.
  - discriminate.
  - unfold Observe.abnormal; lia.
  - unfold Observe.abnormal; lia.
  - unfold Observe.abnormal; lia.
  - unfold Observe.abnormal; lia.
  - constructor.
  - repeat constructor.
  - repeat constructor.
  - repeat constructor.
Defined.

Lemma close_code_taxonomy_witness :
  connectionState (handleClose 1000 "bye" Example.connected).1
    = ConnectionState.Disconnected ∧
  Observe.errors (handleClose 4001 "quota" Example.connected).2
    = [ {| NextEVIError.message := "Connection closed: quota";
           NextEVIError.code := "WEBSOCKET_ERROR";
           NextEVIError.details_of := NextEVIError.close_details 4001 "quota" |} ] ∧
  Observe.reconnects (handleClose 1006 "" Example.connected).2 = [1000].
Proof.
  split; [| split].
  - pose proof (close_code_taxonomy Example.connected 1000 "bye") as H.
    cbv zeta in H. destruct H as (H & _ & _). apply H. reflexivity.
  - pose proof (close_code_taxonomy Example.connected 4001 "quota") as H.
    cbv zeta in H. destruct H as (_ & H & _). apply H. lia.
  - pose proof (close_code_taxonomy Example.connected 1006 "") as H.
    cbv zeta in H. destruct H as (_ & _ & H).
    destruct H as [_ H]; [unfold Observe.abnormal; lia |].
    apply H; [simpl; lia | discriminate].
Defined.

(** A frame with a tag the router does not know, and one that is no JSON. *)
Lemma unknown_frame_dropped_witness :
  VoiceProvider.onmessage Example.runtime initialState (Example.env 3)
    (Router.text "pong-frame") Example.session
    = VoiceProvider.returns Example.session ∧
  VoiceProvider.onmessage Example.runtime initialState (Example.env 3)
    (Router.text "{type:") Example.session
    = VoiceProvider.returns Example.session.
Proof.
  split.
  - apply (unknown_frame_dropped Example.runtime initialState (Example.env 3)
             (Router.text "pong-frame") Example.session).
    intros message Hparse. vm_compute in Hparse.
    injection Hparse as <-. reflexivity.
  - apply (unknown_frame_dropped Example.runtime initialState (Example.env 3)
             (Router.text "{type:") Example.session).
    intros message Hparse. vm_compute in Hparse. discriminate Hparse.
Defined.

(** A log with one user message without emotions. *)
Lemma emotion_batch_attachment_witness :
  let p := VoiceProvider.set_state VoiceProvider.mount
             (set_messages initialState [Example.hello]) in
  let es := [ {| emotion := "joy"; percentage := JS.number_of_Z 80 |} ] in
  let p' := VoiceProvider.wsEvents Example.runtime initialState (Example.env 3)
              (onEmotion es) p in
  ∃ i m, [Example.hello] !! i = Some m ∧
         ((messages (VoiceProvider.state p') !! i ≫= metadata) ≫= emotions) = Some es.
Proof.
  intros p es p'.
  pose proof (emotion_batch_attachment Example.runtime initialState
                (Example.env 3) es p) as H.
  cbv zeta in H. destruct H as (H & _ & _).
  destruct H as (i & m & Hm & _ & _ & _ & Hes).
  - exists Example.hello. split; [apply list_elem_of_singleton | ]; reflexivity.
  - exists i, m. split; [exact Hm | exact Hes].
Defined.

End Instances.

(** * Further properties of the conversation state machine *)

Section LogShape.
Import VoiceProvider.

(** [UPDATE_STREAMING_MESSAGE] either pushes a streaming message or rewrites
    the streaming message that ends the log. *)
Lemma update_streaming_message_cases (c : Clock) (ms : list VoiceMessage)
    (text : string) (lane : MessageType.t) :
  update_streaming_message c ms text lane =
    ms ++ [ {| id := streaming_id c; type := lane; content := text;
               timestamp := date c;
               metadata := Some (with_isStreaming true noMetadata) |} ] ∨
  ∃ ms0 m, ms = ms0 ++ [m] ∧ is_type lane m = true ∧ streaming m = true ∧
           update_streaming_message c ms text lane =
             ms0 ++ [set_content_timestamp m text (date c)].
Proof.
  destruct (list.last ms) as [m |] eqn:Hlast.
  - destruct (is_type lane m && streaming m) eqn:Hm.
    + right. apply last_Some in Hlast as [ms0 ->].
      apply andb_true_iff in Hm as [Hlane Hstr].
      exists ms0, m. by rewrite update_streaming_message_rewrite.
    + left. apply update_streaming_message_push.
      intros m' Hm'. by simplify_eq.
  - left. apply update_streaming_message_push. intros m' Hm'. by simplify_eq.
Qed.

Lemma reducer_keeps_log (c : Clock) (st : VoiceState) (a : VoiceAction) :
  ¬ Log.clears a →
  (Log.identity <$> messages st)
    `prefix_of` (Log.identity <$> messages (voiceReducer c st a)).
Proof.
  intros Hkeep. destruct a; simpl; try done.
  - rewrite fmap_app. by apply prefix_app_r.
  - destruct (update_streaming_message_cases c (messages st) content0 type0)
      as [-> | (ms0 & m & Hms & Hlane & _ & ->)].
    + rewrite fmap_app. by apply prefix_app_r.
    + rewrite Hms, !fmap_app. done.
  - unfold finalize_streaming_message. rewrite <- list_fmap_compose.
    erewrite list_fmap_ext; [done |]. intros k m _. simpl. by case_match.
  - unfold update_message_metadata. rewrite <- list_fmap_compose.
    erewrite list_fmap_ext; [done |]. intros k m _. simpl. by case_match.
  - unfold add_emotions_to_latest_user_message.
    destruct (lastUserMessageIndex _) as [i |]; [| done].
    destruct (messages st !! i) as [m |] eqn:Hm; [| done].
    rewrite list_fmap_insert. simpl.
    rewrite list_insert_id; [done |]. by rewrite list_lookup_fmap, Hm.
  - destruct Hkeep. by left.
  - destruct Hkeep. by right.
Qed.

Lemma dispatch_keeps_log (c : Clock) (actions : list VoiceAction) (st : VoiceState) :
  Forall (λ a, ¬ Log.clears a) actions →
  (Log.identity <$> messages st)
    `prefix_of` (Log.identity <$> messages (dispatch c st actions)).
Proof.
  intros Hkeep. revert st.
  induction Hkeep as [| a actions Ha _ IH]; intros st; [done |].
  unfold dispatch. simpl. etrans; [by apply (reducer_keeps_log c st a) |].
  apply IH.
Qed.

End LogShape.

Section AppendOnly.
Import VoiceProvider.
Context (rt : Runtime) (seen : VoiceState).

Lemma run_keeps_log (e : Env) (actions : list VoiceAction) (p : t) :
  Forall (λ a, ¬ Log.clears a) actions →
  (Log.identity <$> messages (state p))
    `prefix_of` (Log.identity <$> messages (state (run e actions p))).
Proof. intros Hkeep. by apply dispatch_keeps_log. Qed.

#[local] Ltac keeps_log :=
  repeat first
    [ done
    | apply run_keeps_log; repeat constructor; intros [? | ?]; discriminate
    | etrans; [| apply run_keeps_log; repeat constructor;
                 intros [? | ?]; discriminate ] ].

(** One callback of the socket only appends, or rewrites a message where
    it stands. *)
Lemma wsEvents_append_only (e : Env) (s : Signal) (p : t) :
  (Log.identity <$> messages (state p))
    `prefix_of` (Log.identity <$> messages (state (wsEvents rt seen e s p))).
Proof.
  destruct s; unfold wsEvents, handle_onStateChange, handle_onTranscription,
    handle_onTTSChunk, handle_onLLMChunk, handle_onEmotion,
    handle_onConnectionMetadata, handle_onError, handle_onInterruption,
    handle_onSystemMessage, handle_onTurnComplete, handle_onIdleWarning;
    repeat case_match; keeps_log.
Qed.

(** The same for any number of callbacks in a row. *)
Lemma deliver_append_only (e : Env) (signals : list Signal) (p : t) :
  (Log.identity <$> messages (state p))
    `prefix_of` (Log.identity <$> messages (state (deliver rt seen e signals p))).
Proof.
  revert p. induction signals as [| s signals IH]; intros p; [done |].
  simpl. etrans; [apply (wsEvents_append_only e s p) | apply IH].
Qed.

End AppendOnly.

Section AppendOnlyLog.
Import VoiceProvider.
Context (rt : Runtime).

(** X1: no callback of the socket removes, reorders or renames a message.
    Through any sequence of callbacks, each run with the state its render
    saw and with its own clock, the ids and types of the log before are a
    prefix of the ids and types of the log after: a callback only appends,
    or rewrites a message where it stands. *)
Theorem socket_events_append_only (events : list (VoiceState * Env * Signal))
    (p : t) :
  (Log.identity <$> messages (state p))
    `prefix_of` (Log.identity <$> messages (state (Hooks.later rt events p))).
Proof.
  revert p. induction events as [| [[seen e] s] events IH]; intros p; [done |].
  simpl. etrans; [apply (wsEvents_append_only rt seen e s p) | apply IH].
Qed.

End AppendOnlyLog.

Section StreamingCases.
Import VoiceProvider.

(** X2: [UPDATE_STREAMING_MESSAGE] changes the end of the log and nothing
    before it.  When the log ends in a streaming message of the lane, that
    message is rewritten where it stands: it gets the text given and the
    time of the step, and keeps its id and its metadata; every message
    before it is untouched and the log keeps its length.  Otherwise every
    message of the log is untouched and one message is pushed: a streaming
    message of the lane with the text given, the id [streaming_] followed
    by the clock, and no other metadata. *)
Theorem update_streaming_message_last (c : Clock) (ms : list VoiceMessage)
    (text : string) (lane : MessageType.t) :
  let ms' := update_streaming_message c ms text lane in
  let rewrites :=
    default false ((λ m, is_type lane m && streaming m) <$> list.last ms) in
  ∃ m,
    ms' = (if rewrites then take (length ms - 1) ms else ms) ++ [m] ∧
    type m = lane ∧ streaming m = true ∧ content m = text ∧
    timestamp m = date c ∧
    (if rewrites
     then ∃ old, list.last ms = Some old ∧ id m = id old ∧
                 metadata m = metadata old
     else id m = streaming_id c ∧
          metadata m = Some (with_isStreaming true noMetadata)).
Proof.
  simpl.
  destruct (update_streaming_message_cases c ms text lane)
    as [Hpush | (ms0 & m & -> & Hlane & Hstr & ->)].
  - assert (Hcond : default false
              ((λ m, is_type lane m && streaming m) <$> list.last ms) = false).
    { destruct (list.last ms) as [m |] eqn:Hlast; [| done]. simpl.
      destruct (is_type lane m && streaming m) eqn:Hm; [| done].
      apply last_Some in Hlast as [ms0 ->].
      apply andb_true_iff in Hm as [Hlane Hstr].
      rewrite update_streaming_message_rewrite in Hpush by done.
      apply (f_equal length) in Hpush. rewrite !length_app in Hpush.
      simpl in Hpush. lia. }
    rewrite Hpush, Hcond. eexists. by repeat split.
  - rewrite !last_snoc, !length_app. simpl. rewrite Hlane, Hstr. simpl.
    replace (length ms0 + 1 - 1)%nat with (length ms0) by lia.
    rewrite take_app_length.
    eexists. split; [done |]. repeat split; try done.
    + by apply bool_decide_eq_true_1 in Hlane.
    + by exists m.
Qed.

(** X3: [FINALIZE_STREAMING_MESSAGE] with the id of a message of the log
    turns that message, where it stands, into a message that is not
    streaming and has the text given, keeping its id, type and time; the
    messages of other ids are untouched; the log keeps its length; doing it
    again changes nothing. *)
Theorem finalize_streaming_message_spec (ms : list VoiceMessage)
    (i text : string) :
  let ms' := finalize_streaming_message ms i text in
  length ms' = length ms ∧
  (∀ k m, ms !! k = Some m → id m ≠ i → ms' !! k = Some m) ∧
  (∀ k m, ms !! k = Some m → id m = i →
     ∃ m', ms' !! k = Some m' ∧ id m' = i ∧ type m' = type m ∧
           timestamp m' = timestamp m ∧ content m' = text ∧
           streaming m' = false) ∧
  finalize_streaming_message ms' i text = ms'.
Proof.
  simpl. unfold finalize_streaming_message. repeat split.
  - by rewrite length_fmap.
  - intros k m Hm Hid. rewrite list_lookup_fmap, Hm. simpl.
    by rewrite (proj2 (String.eqb_neq _ _) Hid).
  - intros k m Hm Hid. rewrite list_lookup_fmap, Hm. simpl.
    rewrite (proj2 (String.eqb_eq _ _) Hid). by eexists.
  - rewrite <- list_fmap_compose. apply list_fmap_ext. intros k m _. simpl.
    destruct (String.eqb (id m) i) eqn:Hid; simpl; by rewrite Hid.
Qed.

End StreamingCases.

Section AssistantLane.
Import VoiceProvider.

(** X4: non-final LLM chunks arriving one after the other, while no
    streaming id is remembered and the log does not end in a streaming
    assistant message, add one streaming assistant message, whose text is
    that of the last chunk; the id remembered for finalization is the one
    generated at the first chunk, which is not the id of that message. *)
Theorem llm_chunks_coalesce (first : Env * string) (more : list (Env * string))
    (p : t) :
  currentStreamingMessageId p = None →
  (∀ m, list.last (messages (state p)) = Some m →
        is_type MessageType.assistant m && streaming m = false) →
  let p' := Log.chunks (first :: more) p in
  ∃ m, messages (state p') = messages (state p) ++ [m] ∧
       id m = streaming_id (reducerClock first.1) ∧
       type m = MessageType.assistant ∧ streaming m = true ∧
       content m = (default first (list.last more)).2 ∧
       currentStreamingMessageId p' = Some (generateMessageId first.1) ∧
       currentStreamingMessageId p' ≠ Some (id m).
Proof.
  intros Hnone Hlast. simpl. unfold Log.chunks. simpl.
  set (p1 := handle_onLLMChunk first.1 (Example.chunk false first.2) p).
  assert (H1 : ∃ m, messages (state p1) = messages (state p) ++ [m] ∧
                    id m = streaming_id (reducerClock first.1) ∧
                    type m = MessageType.assistant ∧ streaming m = true ∧
                    content m = first.2 ∧
                    currentStreamingMessageId p1 = Some (generateMessageId first.1)).
  { subst p1. unfold handle_onLLMChunk. simpl. rewrite Hnone. simpl.
    rewrite update_streaming_message_push by done. by eexists. }
  clearbody p1. clear Hlast Hnone.
  assert (Hgoal : ∃ m,
            messages (state (foldl (λ p ev, handle_onLLMChunk ev.1
                                      (Example.chunk false ev.2) p) p1 more))
              = messages (state p) ++ [m] ∧
            id m = streaming_id (reducerClock first.1) ∧
            type m = MessageType.assistant ∧ streaming m = true ∧
            content m = (default first (list.last more)).2 ∧
            currentStreamingMessageId
              (foldl (λ p ev, handle_onLLMChunk ev.1
                                (Example.chunk false ev.2) p) p1 more)
              = Some (generateMessageId first.1)).
  { revert first p1 H1. induction more as [| ev more IH]; intros first p1 H1;
      [done |].
    simpl. destruct H1 as (m & Hms & Hid & Htype & Hstr & Hcontent & Href).
    set (p2 := handle_onLLMChunk ev.1 (Example.chunk false ev.2) p1).
    destruct (IH (first.1, ev.2) p2) as (m' & ? & ? & ? & ? & Hc' & ?).
    { subst p2. unfold handle_onLLMChunk. simpl. rewrite Href. simpl.
      rewrite Hms, update_streaming_message_rewrite;
        [by eexists | by apply bool_decide_eq_true_2 | done]. }
    exists m'. repeat split; try done.
    rewrite Hc'. destruct more as [| x more _] using rev_ind; [done |].
    by rewrite app_comm_cons, !last_snoc. }
  destruct Hgoal as (m & ? & Hid & ? & ? & ? & Href).
  exists m. repeat split; try done.
  all: rewrite Href, Hid; intros [= Heq].
  all: by apply generated_id_not_streaming in Heq.
Qed.

End AssistantLane.

Section Transcripts.
Import VoiceProvider.


Lemma find_last_snoc {A} (f : A → bool) (xs : list A) (x : A) :
  f x = true → JS.find_last f (xs ++ [x]) = Some x.
Proof. intros Hx. unfold JS.find_last. rewrite reverse_snoc. simpl. by rewrite Hx. Qed.

(** X5: a final transcript is stored as it came, while a turn completion is
    compared after trimming.  So when a final transcript has white space at
    either end, a turn completion carrying the very same transcript,
    arriving next and seeing the log as it is, finds no match and changes
    nothing. *)
Theorem untrimmed_transcript_never_completes (e1 e2 : Env)
    (result : TranscriptionResult.t) (turn : TurnCompleteMessage.t) (p : t) :
  TranscriptionResult.isFinal result = true →
  JS.truthy_string (JS.trim (TranscriptionResult.transcript result)) = true →
  JS.trim (TranscriptionResult.transcript result)
    ≠ TranscriptionResult.transcript result →
  TurnCompleteMessage.transcript turn = TranscriptionResult.transcript result →
  let p1 := handle_onTranscription e1 result p in
  (∃ m, messages (state p1) = messages (state p) ++ [m] ∧
        content m = TranscriptionResult.transcript result) ∧
  handle_onTurnComplete (state p1) e2 turn p1 = p1.
Proof.
  intros Hfinal Hspoken Hne Hsame. simpl.
  unfold handle_onTranscription. rewrite Hfinal, Hspoken. simpl.
  split; [by eexists |].
  unfold handle_onTurnComplete. simpl. rewrite find_last_snoc by done. simpl.
  rewrite Hsame.
  rewrite (proj2 (String.eqb_neq _ _)) by done.
  by destruct (_ && _).
Qed.

End Transcripts.

Section Errors.
Import VoiceProvider.
Context (rt : Runtime) (seen : VoiceState).

(** X6: an error reported by the socket is recorded twice, in the error
    field and as an error message at the end of the log.  The next change
    of connection state, whichever it is, wipes the error field; the
    message stays in the log. *)
Theorem error_stays_in_log (e1 e2 : Env) (err : NextEVIError.t)
    (s : ConnectionState.t) (p : t) :
  let p1 := wsEvents rt seen e1 (onError err) p in
  let p2 := wsEvents rt seen e2 (onStateChange s) p1 in
  error (state p1) = JS.value (NextEVIError.message err) ∧
  error (state p2) = JS.null ∧
  ∃ m, messages (state p1) = messages (state p) ++ [m] ∧
       messages (state p2) = messages (state p) ++ [m] ∧
       type m = MessageType.error ∧
       content m = "Error: " +:+ NextEVIError.message err.
Proof. simpl. repeat split. by eexists. Qed.

End Errors.

(** * Further properties of the transport channel *)

Section ManagerTeardown.
Import WebSocketManager.

#[local] Ltac cmd_unfold :=
  unfold handleClose, handleError, handleOpen, attemptReconnection, connect,
    reconnectTimer, connectTimeout, disconnect, setConnectionState,
    notifyStateChange, seq, branch, modify, perform, skip, backoff in *.

(** What [disconnect] of the manager does, in one equation. *)
Lemma disconnect_eq (m : t) :
  disconnect m =
    (Lifecycle.torn_down m,
     (if websocket m is Some _
      then [socket_close 1000 "User initiated disconnect"] else []) ++
     (if decide (connectionState m = ConnectionState.Disconnected)
      then [] else [emit (onStateChange ConnectionState.Disconnected)])).
Proof.
  cmd_unfold. unfold Lifecycle.torn_down.
  destruct (decide (connectionState m = ConnectionState.Disconnected))
    as [Heq | Hne].
  - simpl. destruct (websocket m) eqn:Hws; simpl.
    all: rewrite bool_decide_eq_false_2 by (by intros []).
    all: cbv [set_reconnectAttempts set_config set_connectionId set_websocket
           set_isConnecting]; simpl; by rewrite ?Heq, ?Hws.
  - simpl. destruct (websocket m) eqn:Hws; simpl.
    all: rewrite bool_decide_eq_true_2 by done.
    all: cbv [set_reconnectAttempts set_config set_connectionId set_websocket
           set_isConnecting set_connectionState]; simpl.
    all: destruct (connectPending m); simpl; by rewrite ?Hws.
Qed.

(** X7: [disconnect] of the manager closes the socket with code 1000 when
    it holds one and only then, announces Disconnected when the state was
    another one and only then, and leaves no socket, no configuration, no
    connection id, no attempt counted and no connect in progress.  It sets
    no timer and reports no error.  A second [disconnect] does nothing. *)
Theorem manager_disconnect_spec (m : t) :
  disconnect m =
    (Lifecycle.torn_down m,
     (if websocket m is Some _
      then [socket_close 1000 "User initiated disconnect"] else []) ++
     (if decide (connectionState m = ConnectionState.Disconnected)
      then [] else [emit (onStateChange ConnectionState.Disconnected)])) ∧
  disconnect (disconnect m).1 = ((disconnect m).1, []).
Proof.
  split; [apply disconnect_eq |].
  rewrite !disconnect_eq. done.
Qed.

(** X8: once [disconnect] has run, a backoff timer that was set before and
    fires now does nothing: no socket is created, no state is announced.
    The timer that ends a pending connect leaves the manager as it is and
    announces no state either. *)
Theorem timers_after_disconnect (e : Env) (created : bool) (m : t) :
  let m' := (disconnect m).1 in
  reconnectTimer e created m' = (m', []) ∧
  (connectTimeout m').1 = m' ∧
  Observe.stateChanges (connectTimeout m').2 = [].
Proof.
  rewrite disconnect_eq. simpl.
  split; [done |].
  by unfold connectTimeout, seq, modify, perform.
Qed.

End ManagerTeardown.

Section ManagerLifecycle.
Import WebSocketManager.

#[local] Ltac cmd_unfold :=
  unfold handleClose, handleError, handleOpen, attemptReconnection, connect,
    reconnectTimer, connectTimeout, disconnect, setConnectionState,
    notifyStateChange, seq, branch, modify, perform, skip, backoff in *.

(** X9: a [connect] that follows a [connect] whose socket was created does
    nothing, whatever configuration it is given: either the connection is
    open already or the first connect is still in progress. *)
Theorem connect_twice_ignored (e1 e2 : Env) (created2 : bool)
    (cfg1 cfg2 : NextEVIConfig.t) (m : t) :
  let m1 := (connect e1 true cfg1 m).1 in
  connect e2 created2 cfg2 m1 = (m1, []).
Proof.
  simpl. cmd_unfold.
  destruct (decide (connectionState m = ConnectionState.Connected)) as [Hc | Hc].
  - rewrite (bool_decide_eq_true_2 _ Hc). simpl.
    by rewrite (bool_decide_eq_true_2 _ Hc).
  - rewrite (bool_decide_eq_false_2 _ Hc).
    destruct (isConnecting m) eqn:Hi; simpl.
    + by rewrite (bool_decide_eq_false_2 _ Hc), Hi.
    + destruct (decide (connectionState m = ConnectionState.Connecting))
        as [Hg | Hg].
      * rewrite (bool_decide_eq_false_2 (connectionState m ≠ _))
          by (intros Hx; by apply Hx).
        simpl. rewrite bool_decide_eq_false_2 by (by rewrite Hg). done.
      * rewrite (bool_decide_eq_true_2 _ Hg). simpl.
        by destruct (connectPending m).
Qed.

Lemma backoff_delays (a : Z) :
  0 ≤ a < 3 → 1000 * 2 ^ (a + 1 - 1) ∈ [1000; 2000; 4000].
Proof.
  intros Ha.
  assert (a = 0 ∨ a = 1 ∨ a = 2) as [-> | [-> | ->]] by lia;
    simpl; rewrite !elem_of_cons; auto.
Qed.

Lemma step_sound (a : Lifecycle.Action) (m : t) :
  Lifecycle.Sound m →
  Lifecycle.Sound (Lifecycle.step a m).1 ∧
  Forall (λ d, d ∈ [1000; 2000; 4000]) (Observe.reconnects (Lifecycle.step a m).2).
Proof.
  intros (Hatt & Hmax & Hdelay & Hws). unfold Lifecycle.Sound.
  destruct a as [[| code reason | | e created |] | e created cfg |]; simpl;
    cmd_unfold; cmd_unfold; unfold settle; simpl.
  all: repeat (case_bool_decide || case_match); simplify_eq; simpl in *.
  all: try rewrite Hdelay.
  all: unfold Observe.reconnects; simpl;
    rewrite ?omap_app, ?settled_unobserved by done; simpl.
  all: split; [repeat split; (lia || done || intuition congruence) |].
  all: repeat first [apply List.Forall_nil | apply List.Forall_cons].
  all: apply backoff_delays; lia.
Qed.

Lemma lifecycle_run_sound (actions : list Lifecycle.Action) (m : t) :
  Lifecycle.Sound m →
  Lifecycle.Sound (Lifecycle.run actions m).1 ∧
  Forall (λ d, d ∈ [1000; 2000; 4000])
    (Observe.reconnects (Lifecycle.run actions m).2).
Proof.
  revert m. induction actions as [| a actions IH]; intros m Hm; simpl.
  - split; [done | constructor].
  - unfold seq. destruct (step_sound a m Hm) as [Hm1 Hfx1].
    destruct (Lifecycle.step a m) as [m1 fx1]. simpl in *.
    destruct (IH m1 Hm1) as [Hm2 Hfx2].
    destruct (Lifecycle.run actions m1) as [m2 fx2]. simpl in *.
    split; [done |]. unfold Observe.reconnects in *.
    rewrite omap_app. by apply Forall_app.
Qed.

(** X10: through any sequence of [connect] and [disconnect] calls and of
    socket events (open, close with any code, error, both timers), a
    manager as its constructor made it keeps its attempt counter between 0
    and 3, holds a configuration and a connection id whenever it holds a
    socket, and sets reconnection timers of 1, 2 or 4 seconds only. *)
Theorem lifecycle_invariant (actions : list Lifecycle.Action) :
  let r := Lifecycle.run actions create in
  0 ≤ reconnectAttempts r.1 ≤ 3 ∧
  (websocket r.1 ≠ None → config r.1 ≠ None ∧ connectionId r.1 ≠ None) ∧
  Forall (λ d, d ∈ [1000; 2000; 4000]) (Observe.reconnects r.2).
Proof.
  simpl. destruct (lifecycle_run_sound actions create) as [(Ha & Hm & _ & Hws) Hfx].
  { unfold Lifecycle.Sound. simpl. repeat split; (lia || done). }
  rewrite Hm in Ha. done.
Qed.

(** X11: an open connection whose socket closes abnormally without an error
    event counts an attempt and sets the backoff timer, but stays in the
    state Connected with no socket; when the timer fires, the [connect] it
    calls finds the state Connected and returns at once: no socket is
    created and no state is announced. *)
Theorem reconnect_skipped_while_connected (e : Env) (created : bool)
    (code : Z) (reason : string) (m : t) :
  connectionState m = ConnectionState.Connected →
  Observe.abnormal code →
  reconnectAttempts m < maxReconnectAttempts m → config m ≠ None →
  let r := handleClose code reason m in
  websocket r.1 = None ∧ connectionState r.1 = ConnectionState.Connected ∧
  Observe.reconnects r.2 = [reconnectDelay m * 2 ^ reconnectAttempts m] ∧
  reconnectTimer e created r.1 = (r.1, []).
Proof.
  intros Hstate [Hne Hlt] Hleft Hcfg r. subst r. rewrite handleClose_eq.
  rewrite (bool_decide_eq_false_2 _ Hne).
  rewrite bool_decide_eq_false_2 by lia.
  rewrite attemptReconnection_retry by done. simpl.
  repeat split; [done |].
  unfold reconnectTimer. simpl. destruct (config m); [| done].
  unfold connect, branch, skip. simpl. by rewrite bool_decide_eq_true_2.
Qed.

(** X12: once the attempts are used up, every further abnormal closure ends
    in Error and hands one more report of exhausted retries to the error
    callback; no timer is set and the counter stays where it is. *)
Theorem exhausted_retries_report_each_closure
    (closures : list (Z * string)) (m : t) :
  Forall (λ c, Observe.abnormal c.1) closures →
  maxReconnectAttempts m ≤ reconnectAttempts m →
  let r := Trace.run ((λ c, Trace.closed c.1 c.2) <$> closures) m in
  length (Observe.maxReconnectErrors r.2) = length closures ∧
  Observe.reconnects r.2 = [] ∧
  reconnectAttempts r.1 = reconnectAttempts m ∧
  maxReconnectAttempts r.1 = maxReconnectAttempts m ∧
  (closures ≠ [] → connectionState r.1 = ConnectionState.Error).
Proof.
  intros Hcodes. revert m.
  induction Hcodes as [| [code reason] closures [Hne Hlt] _ IH]; intros m Hout;
    simpl in *.
  - by unfold skip.
  - unfold seq. rewrite handleClose_eq.
    rewrite (bool_decide_eq_false_2 _ Hne).
    rewrite bool_decide_eq_false_2 by lia.
    pose proof (attemptReconnection_exhausted (set_websocket m None)) as Hx.
    simpl in Hx. destruct Hx as (Hs & Ha & Hm & _ & _ & Herr & Hrec); [by left |].
    destruct (attemptReconnection _) as [m1 fx1]; simpl in *.
    destruct (IH m1) as (Hn & Hr & Ha2 & Hm2 & Hstate); [lia |].
    assert (Hfinal : connectionState
              (Trace.run ((λ c, Trace.closed c.1 c.2) <$> closures) m1).1
              = ConnectionState.Error).
    { destruct closures as [| c closures]; [done | by apply Hstate]. }
    destruct (Trace.run _ m1) as [m2 fx2]; simpl in *.
    unfold Observe.maxReconnectErrors, Observe.errors, Observe.reconnects in *.
    rewrite !omap_app, list.filter_app, length_app, Herr, Hrec, Hr, Hn.
    repeat split; try (done || congruence).
Qed.

(** X13: a [connect] from rest (Disconnected or Error, none in progress)
    whose socket is created announces Connecting and waits.  When the socket
    opens, Connected is announced, then the wrapper of this connect and
    every wrapper that earlier connects left installed clear their
    timeouts and resolve their promises, the innermost first; when the
    socket fails instead, Error is announced, they reject, and the socket
    error goes to the error callback.  Either way no connect is in
    progress any more, and the wrappers of the earlier connects are
    installed again.  With none of them there is one clearing and one
    settling. *)
Theorem connect_settles (e : Env) (cfg : NextEVIConfig.t) (m : t) :
  connectionState m = ConnectionState.Disconnected
    ∨ connectionState m = ConnectionState.Error →
  isConnecting m = false →
  let socket := {| path := newConnectionId e |} in
  let waiting := [ emit (onStateChange ConnectionState.Connecting);
                   socket_created socket; connect_timeout_in 10000 ] in
  let opened := Lifecycle.run [ Lifecycle.connectCall e true cfg;
                                Lifecycle.socketEvent Trace.opened ] m in
  let failed := Lifecycle.run [ Lifecycle.connectCall e true cfg;
                                Lifecycle.socketEvent Trace.failed ] m in
  opened.2 = waiting ++ [ emit (onStateChange ConnectionState.Connected) ]
               ++ settled (S (connectPending m)) connect_resolved ∧
  connectionState opened.1 = ConnectionState.Connected ∧
  isConnecting opened.1 = false ∧ reconnectAttempts opened.1 = 0 ∧
  websocket opened.1 = Some socket ∧
  connectPending opened.1 = connectPending m ∧
  failed.2 = waiting ++ [ emit (onStateChange ConnectionState.Error) ]
               ++ settled (S (connectPending m))
                    (connect_rejected connectionFailed)
               ++ [ emit (onError socketError) ] ∧
  connectionState failed.1 = ConnectionState.Error ∧
  isConnecting failed.1 = false ∧
  connectPending failed.1 = connectPending m.
Proof.
  intros Hrest Hidle. simpl. cmd_unfold. unfold settle. simpl.
  destruct Hrest as [Hs | Hs]; rewrite !Hs, Hidle; simpl;
    by rewrite ?app_nil_r.
Qed.

End ManagerLifecycle.

(** * Further properties of the provider *)

Section Rollback.
Import VoiceProvider.
Context (rt : Runtime) (seen : VoiceState).


End Rollback.

(** * Further properties of the event router *)

Section Frames.
Import JSON Router.



End Frames.

Section BlankFrames.
Import JSON Router VoiceProvider.
Context (rt : Runtime) (seen : VoiceState).


End BlankFrames.

(** * Properties of the playback queue *)

Section PlaybackQueue.
Import TTSPlaybackProcessor Playback.

Lemma pending_cons_lookup (block : list Z) (rest : list (list Z)) (k : nat) :
  (k < length block)%nat →
  ∃ x, block !! k = Some x ∧
       drop k (block ++ concat rest) = x :: drop (S k) (block ++ concat rest).
Proof.
  intros Hk. destruct (lookup_lt_is_Some_2 block k Hk) as [x Hx].
  exists x. split; [done |].
  apply drop_S. by apply lookup_app_l_Some.
Qed.

(** One sample is played and leaves the queue. *)
Lemma advance_spec (block : list Z) (rest : list (list Z)) (p : t) :
  WellFormed p → bufferQueue p = block :: rest →
  ∃ x, read block (readOffset p) = play x ∧
       pending p = x :: pending (advance block rest p) ∧
       WellFormed (advance block rest p).
Proof.
  intros (Hblocks & Hpos & Hoff & Hrem) Hq. rewrite Hq in *.
  apply Forall_cons_1 in Hblocks as [Hblock Hrest].
  destruct (pending_cons_lookup block rest (Z.to_nat (readOffset p)))
    as (x & Hx & Hdrop); [lia |].
  exists x. unfold read, advance, pending in *.
  rewrite Hq in *. simpl in *.
  rewrite bool_decide_eq_true_2 by done. rewrite Hx. simpl.
  split; [done |].
  case_bool_decide as Hend; simpl.
  - assert (S (Z.to_nat (readOffset p)) = length block) as Hlen by lia.
    rewrite Hdrop, Hlen, drop_app_length.
    change (Z.to_nat 0) with 0%nat. rewrite drop_0.
    split; [done |]. unfold WellFormed. simpl.
    repeat split; try done.
    + destruct rest as [| block' rest']; [done |].
      apply Forall_cons_1 in Hrest as [Hb' _].
      destruct block'; [done | simpl; lia].
    + rewrite Hrem, Hdrop, Hlen, drop_app_length. unfold pending. simpl.
      change (Z.to_nat 0) with 0%nat. rewrite drop_0. lia.
  - rewrite Hdrop.
    replace (Z.to_nat (readOffset p + 1)) with (S (Z.to_nat (readOffset p))) by lia.
    split; [done |]. unfold WellFormed. simpl.
    repeat split; try (done || lia).
    + by constructor.
    + unfold pending. simpl.
      replace (Z.to_nat (readOffset p + 1)) with (S (Z.to_nat (readOffset p))) by lia.
      rewrite Hrem, Hdrop. simpl. lia.
Qed.

Lemma advance_isPlaying (block : list Z) (rest : list (list Z)) (p : t) :
  isPlaying (advance block rest p) = isPlaying p.
Proof. unfold advance. by case_bool_decide. Qed.

Lemma drain_spec (n : nat) (p : t) :
  WellFormed p →
  (drain n p).2 = play <$> take n (pending p) ∧
  pending (drain n p).1 = drop n (pending p) ∧
  WellFormed (drain n p).1 ∧
  isPlaying (drain n p).1 = isPlaying p.
Proof.
  revert p. induction n as [| n IH]; intros p Hwf; simpl.
  - done.
  - destruct (bufferQueue p) as [| block rest] eqn:Hq.
    + assert (pending p = []) as Hnone.
      { unfold pending. rewrite Hq. simpl. by rewrite drop_nil. }
      by rewrite Hnone.
    + destruct (advance_spec block rest p Hwf Hq) as (x & Hread & Hpending & Hwf').
      destruct (IH _ Hwf') as (Hout & Hrest & Hwf'' & Hplaying).
      destruct (drain n (advance block rest p)) as [p' out]. simpl in *.
      rewrite Hread, Hout, Hpending, Hplaying, advance_isPlaying. simpl.
      by rewrite Hrest.
Qed.

Lemma set_isPlaying_wf (b : bool) (p : t) :
  WellFormed p → WellFormed (set_isPlaying b p) ∧
  pending (set_isPlaying b p) = pending p.
Proof. done. Qed.

(** X20: played in the order posted, nothing lost, nothing made up.  One
    call of [process] for an output block of [n] samples plays the first
    [n] samples that were pending, each divided by 32768, fills the rest of
    the block with silence, and leaves the other samples pending, in
    order.  No sample is read past the end of a block. *)
Theorem playback_fifo (n : nat) (p : t) :
  WellFormed p →
  let r := process n p in
  r.1.2 = (play <$> take n (pending p))
            ++ replicate (n - length (pending p)) silence ∧
  length r.1.2 = n ∧
  pending r.1.1 = drop n (pending p) ∧
  WellFormed r.1.1.
Proof.
  intros Hwf. simpl. unfold process.
  pose proof Hwf as (_ & _ & _ & Hrem).
  case_bool_decide as Hzero; simpl.
  - assert (pending p = []) as Hnone.
    { apply length_zero_iff_nil. lia. }
    rewrite Hnone, take_nil, drop_nil. simpl.
    rewrite Nat.sub_0_r, length_replicate.
    split; [done | split; [done | split; [done |]]].
    by apply set_isPlaying_wf.
  - destruct (drain_spec n (set_isPlaying true p)) as (Hout & Hrest & Hwf' & _);
      [by apply set_isPlaying_wf |].
    destruct (drain n (set_isPlaying true p)) as [p' out]. simpl in *.
    change (pending (set_isPlaying true p)) with (pending p) in *.
    rewrite Hout, length_fmap, length_take.
    replace (n - n `min` length (pending p))%nat
      with (n - length (pending p))%nat by lia.
    split; [done | split; [| done]].
    rewrite length_app, length_fmap, length_take, length_replicate. lia.
Qed.

Lemma process_well_formed (n : nat) (p : t) :
  WellFormed p → WellFormed (process n p).1.1.
Proof.
  intros Hwf. unfold process. case_bool_decide; simpl.
  - by apply set_isPlaying_wf.
  - destruct (drain_spec n (set_isPlaying true p)) as (_ & _ & Hwf' & _);
      [by apply set_isPlaying_wf |].
    by destruct (drain n (set_isPlaying true p)).
Qed.

Lemma posted_well_formed (data : list Z) (p : t) :
  data ≠ [] → WellFormed p → WellFormed (onmessage (samples data) p).
Proof.
  intros Hdata (Hblocks & Hpos & Hoff & Hrem).
  assert (Hpending : pending (onmessage (samples data) p) = pending p ++ data).
  { unfold pending. simpl. rewrite concat_app. simpl. rewrite app_nil_r.
    apply drop_app_le.
    destruct (bufferQueue p) as [| block rest]; simpl;
      [lia | rewrite length_app; lia]. }
  unfold WellFormed. rewrite Hpending. simpl.
  repeat split; try done.
  - apply Forall_app. split; [done | by constructor].
  - destruct (bufferQueue p) as [| block rest]; simpl; [| done].
    destruct data; [done | simpl; lia].
  - rewrite Hrem, length_app. lia.
Qed.

(** As long as no empty block is posted, the processor stays in a state
    where the count of samples remaining is the number of samples
    pending. *)
Lemma steps_well_formed (ops : list Op) (p : t) :
  NoEmptyBlock ops → WellFormed p → WellFormed (foldl (λ p op, step op p) p ops).
Proof.
  intros Hops. revert p.
  induction Hops as [| op ops Hop _ IH]; intros p Hwf; [done |].
  simpl. apply IH. destruct op as [data | | n]; simpl.
  - by apply posted_well_formed.
  - done.
  - by apply process_well_formed.
Qed.

(** X21: as long as no empty block has been posted to it since it was
    constructed, the processor tells the audio manager when playback
    starts and when it stops, and only then.  After any such sequence of
    blocks posted, [clear] messages and output blocks rendered, a call of
    [process] that finds samples pending posts [playbackStarted] when the
    processor was not playing; a call that finds none posts
    [playbackStopped] when it was; no other call posts anything.  After
    the call the processor is playing exactly when it found samples
    pending. *)
Theorem playback_signals (ops : list Op) (n : nat) :
  NoEmptyBlock ops →
  let p := after ops in
  let r := process n p in
  WellFormed p ∧
  r.2 = (if bool_decide (pending p = [])
         then (if isPlaying p then [playbackStopped] else [])
         else (if isPlaying p then [] else [playbackStarted])) ∧
  isPlaying r.1.1 = negb (bool_decide (pending p = [])).
Proof.
  intros Hops. simpl.
  assert (WellFormed (after ops)) as Hwf by (by apply steps_well_formed).
  split; [done |]. generalize dependent (after ops). intros p Hwf.
  unfold process.
  pose proof Hwf as (_ & _ & _ & Hrem).
  case_bool_decide as Hzero; simpl.
  - assert (pending p = []) as Hnone.
    { apply length_zero_iff_nil. lia. }
    by rewrite bool_decide_eq_true_2.
  - assert (pending p ≠ []) as Hsome.
    { intros Hnone. rewrite Hnone in Hrem. simpl in Hrem. lia. }
    rewrite bool_decide_eq_false_2 by done.
    destruct (drain_spec n (set_isPlaying true p)) as (_ & _ & _ & Hplaying);
      [by apply set_isPlaying_wf |].
    by destruct (drain n (set_isPlaying true p)) as [p' out].
Qed.

(** X22: a block of samples posted to the processor goes to the end of what
    is pending; the message [clear] leaves nothing pending and a processor
    that is not playing, so that the next call of [process] plays silence
    and posts nothing, not even [playbackStopped]. *)
Theorem playback_messages (data : list Z) (n : nat) (p : t) :
  WellFormed p →
  (data ≠ [] →
     WellFormed (onmessage (samples data) p) ∧
     pending (onmessage (samples data) p) = pending p ++ data ∧
     isPlaying (onmessage (samples data) p) = isPlaying p) ∧
  pending (onmessage clear p) = [] ∧
  WellFormed (onmessage clear p) ∧
  process n (onmessage clear p) = (create, replicate n silence, []).
Proof.
  intros (Hblocks & Hpos & Hoff & Hrem). split; [| by repeat split].
  intros Hdata.
  assert (Hpending : pending (onmessage (samples data) p) = pending p ++ data).
  { unfold pending. simpl. rewrite concat_app. simpl. rewrite app_nil_r.
    apply drop_app_le.
    destruct (bufferQueue p) as [| block rest]; simpl;
      [lia | rewrite length_app; lia]. }
  split; [| done]. unfold WellFormed. rewrite Hpending. simpl.
  repeat split; try done.
  - apply Forall_app. split; [done | by constructor].
  - destruct (bufferQueue p) as [| block rest]; simpl; [| done].
    destruct data; [done | simpl; lia].
  - rewrite Hrem, length_app. lia.
Qed.

End PlaybackQueue.

(** ** An empty block of samples *)

Section EmptyBlock.
Import TTSPlaybackProcessor Playback.

Lemma advance_remaining (c : Z) (block : list Z) (rest : list (list Z)) (p : t) :
  advance block rest (set_samplesRemaining (samplesRemaining p + c) p)
  = set_samplesRemaining
      (samplesRemaining (advance block rest p) + c) (advance block rest p).
Proof.
  unfold advance, set_samplesRemaining. simpl.
  case_bool_decide; simpl; f_equal; lia.
Qed.

(** The loop of [process] never looks at the count of samples remaining:
    it only carries it. *)
Lemma drain_remaining (c : Z) (n : nat) (p : t) :
  drain n (set_samplesRemaining (samplesRemaining p + c) p)
  = (set_samplesRemaining (samplesRemaining (drain n p).1 + c) (drain n p).1,
     (drain n p).2).
Proof.
  revert p. induction n as [| n IH]; intros p; simpl.
  - done.
  - destruct (bufferQueue p) as [| block rest] eqn:Hq; simpl; [done |].
    rewrite advance_remaining, IH.
    by destruct (drain n (advance block rest p)).
Qed.

Lemma nothing_pending (p : t) :
  WellFormed p → pending p = [] →
  bufferQueue p = [] ∧ readOffset p = 0 ∧ samplesRemaining p = 0.
Proof.
  intros (Hblocks & Hpos & Hoff & Hrem) Hnone.
  rewrite Hnone in Hrem. simpl in Hrem.
  destruct (bufferQueue p) as [| block rest] eqn:Hq; [done |].
  exfalso. apply (f_equal length) in Hnone.
  unfold pending in Hnone. rewrite Hq in Hnone. simpl in Hnone.
  rewrite length_drop, length_app in Hnone. lia.
Qed.

(** X23: an empty block of samples breaks the stop signal.  When an idle
    processor is posted an empty block and then a block [data], the next
    output block that has room for more than [data] starts with a sample
    that is not a number, plays [data] after it, and leaves the count of
    samples remaining at -1; every later call of [process] plays silence
    and posts nothing: [playbackStopped] is not sent. *)
Theorem empty_block_blocks_stop_signal (data : list Z) (n m : nat) (p : t) :
  WellFormed p → bufferQueue p = [] →
  data ≠ [] → (length data < n)%nat →
  let r := process n (onmessage (samples data) (onmessage (samples []) p)) in
  r.1.2 = None :: (play <$> data) ++ replicate (n - S (length data)) silence ∧
  samplesRemaining r.1.1 = -1 ∧
  process m r.1.1 = (r.1.1, replicate m silence, []).
Proof.
  intros (_ & _ & Hoff & Hrem) Hq Hdata Hn.
  unfold pending in Hrem. rewrite Hq in Hoff, Hrem.
  simpl in Hrem. rewrite drop_nil in Hrem. simpl in Hrem.
  destruct p as [queue offset remaining playing]. simpl in *. subst.
  destruct n as [| n]; [lia |].
  unfold process. simpl.
  rewrite bool_decide_eq_false_2
    by (destruct data; [done | simpl; lia]).
  simpl.
  set (q := {| bufferQueue := [data]; readOffset := 0;
               samplesRemaining := Z.of_nat (length data);
               isPlaying := true |}).
  assert (WellFormed q) as Hwf.
  { unfold WellFormed, pending. simpl. rewrite app_nil_r.
    repeat split; try done.
    - by repeat constructor.
    - destruct data; [done | simpl; lia]. }
  change (advance [] [data] _)
    with (set_samplesRemaining (samplesRemaining q + -1) q).
  rewrite drain_remaining.
  destruct (drain_spec n q Hwf) as (Hout & Hrest & Hwf' & Hplaying).
  assert (pending q = data) as Hpending.
  { unfold pending. simpl. by rewrite app_nil_r. }
  rewrite Hpending in Hout, Hrest.
  rewrite take_ge in Hout by lia. rewrite drop_ge in Hrest by lia.
  destruct (nothing_pending _ Hwf' Hrest) as (Hq' & Hoff' & Hrem').
  destruct (drain n q) as [[queue' offset' remaining' playing'] out].
  simpl in Hout, Hq', Hoff', Hrem', Hplaying |- *.
  subst queue' offset' remaining' playing' out. rewrite length_fmap.
  repeat split; try done.
  rewrite bool_decide_eq_false_2 by lia.
  destruct m; simpl; by rewrite ?Nat.sub_0_r.
Qed.

End EmptyBlock.

(** * Properties of the capture processor *)

Section Capture.
Import PCMCaptureProcessor.

Lemma store_spec (x : Float) (hasActivity : bool) (p : t) :
  Ready p →
  Ready (store x hasActivity p).1.1 ∧
  Forall (λ pcmData, length pcmData = chunkSize) (store x hasActivity p).2 ∧
  concat (store x hasActivity p).2
    ++ float32ToPCM16 (waiting (store x hasActivity p).1.1)
  = float32ToPCM16 (waiting p ++ [x]) ∧
  (chunksProcessed (store x hasActivity p).1.1
   = chunksProcessed p + length (store x hasActivity p).2)%nat.
Proof.
  intros [Hlen Hidx].
  assert (take (S (bufferIndex p)) (<[bufferIndex p := x]> (buffer p))
          = waiting p ++ [x]) as Htake.
  { unfold waiting.
    destruct (lookup_lt_is_Some_2 (buffer p) (bufferIndex p)) as [y Hy]; [lia |].
    rewrite (take_S_r _ _ x) by (rewrite list_lookup_insert_eq; [done | lia]).
    by rewrite take_insert_ge by lia. }
  unfold store. case_bool_decide as Hfull; simpl in *.
  - assert (S (bufferIndex p) = chunkSize) as Hall by lia.
    assert (<[bufferIndex p := x]> (buffer p) = waiting p ++ [x]) as Hbuffer.
    { rewrite <- Htake. symmetry. apply take_ge.
      rewrite length_insert. lia. }
    unfold Ready, waiting, float32ToPCM16. simpl.
    rewrite length_insert, !app_nil_r, Hbuffer.
    split; [split; [done | unfold chunkSize; lia] |].
    split; [| split; [done | lia]].
    repeat constructor.
    by rewrite length_fmap, <- Hbuffer, length_insert.
  - unfold Ready, waiting. simpl. rewrite length_insert, Htake.
    repeat split; try done; lia.
Qed.

Lemma loop_spec (channelData : list Float) (hasActivity : bool) (p : t) :
  Ready p →
  Ready (loop channelData hasActivity p).1 ∧
  Forall (λ pcmData, length pcmData = chunkSize)
    (loop channelData hasActivity p).2 ∧
  concat (loop channelData hasActivity p).2
    ++ float32ToPCM16 (waiting (loop channelData hasActivity p).1)
  = float32ToPCM16 (waiting p ++ channelData) ∧
  (chunksProcessed (loop channelData hasActivity p).1
   = chunksProcessed p + length (loop channelData hasActivity p).2)%nat.
Proof.
  revert hasActivity p.
  induction channelData as [| x channelData IH]; intros hasActivity p Hready.
  - simpl. rewrite app_nil_r.
    split; [done | split; [done | split; [done | lia]]].
  - simpl.
    destruct (store_spec x hasActivity p Hready)
      as (Hready' & Hsizes & Hsamples & Hcount).
    destruct (store x hasActivity p) as [[p1 h] posted]. simpl in *.
    destruct (IH h p1 Hready') as (Hready'' & Hsizes' & Hsamples' & Hcount').
    destruct (loop channelData h p1) as [p2 later]. simpl in *.
    split; [done |]. split; [by apply Forall_app |].
    split.
    + rewrite concat_app, <- app_assoc, Hsamples'.
      unfold float32ToPCM16 in *.
      rewrite fmap_app, app_assoc, Hsamples, <- fmap_app.
      by rewrite <- app_assoc.
    + rewrite length_app. lia.
Qed.

(** X24: the capture processor cuts the microphone signal into chunks of
    2048 samples without losing or reordering one.  After a call of
    [process], the chunks posted, followed by the samples still waiting in
    the buffer, are the conversion of the samples that were waiting before
    followed by the samples of the first channel; every chunk posted holds
    2048 samples, and each is counted once. *)
Theorem capture_chunking (inputs : list (list (list Float))) (p : t) :
  Ready p →
  let r := process inputs p in
  Ready r.1 ∧
  Forall (λ pcmData, length pcmData = chunkSize) r.2 ∧
  concat r.2 ++ float32ToPCM16 (waiting r.1)
  = float32ToPCM16 (waiting p ++ heard inputs) ∧
  (chunksProcessed r.1 = chunksProcessed p + length r.2)%nat.
Proof.
  intros Hready. simpl. unfold process, heard.
  destruct (inputs !! 0%nat) as [[| channelData others] |]; simpl;
    try (rewrite app_nil_r;
         split; [done | split; [done | split; [done | lia]]]).
  by apply loop_spec.
Qed.

Lemma quot_Qeq (a b : Q) :
  (a == b)%Q →
  Z.quot (Qnum a) (Z.pos (Qden a)) = Z.quot (Qnum b) (Z.pos (Qden b)).
Proof.
  destruct a as [na da], b as [nb db]. unfold Qeq. simpl. intros Heq.
  rewrite <- (Z.quot_mul_cancel_r na (Z.pos da) (Z.pos db)) by lia.
  rewrite Heq, (Z.mul_comm (Z.pos da)).
  by rewrite Z.quot_mul_cancel_r by lia.
Qed.

Lemma quot_Qle (a b : Q) :
  (a <= b)%Q →
  Z.quot (Qnum a) (Z.pos (Qden a)) ≤ Z.quot (Qnum b) (Z.pos (Qden b)).
Proof.
  destruct a as [na da], b as [nb db]. unfold Qle. simpl. intros Hle.
  rewrite <- (Z.quot_mul_cancel_r na (Z.pos da) (Z.pos db)) by lia.
  rewrite <- (Z.quot_mul_cancel_r nb (Z.pos db) (Z.pos da)) by lia.
  rewrite (Z.mul_comm (Z.pos da)).
  apply Z.quot_le_mono; lia.
Qed.

Lemma trunc_mono (x y : JS.number) : (x ≤ y)%Qc → trunc x ≤ trunc y.
Proof. apply quot_Qle. Qed.

Lemma trunc_number_of_Z (z : Z) : trunc (JS.number_of_Z z) = z.
Proof.
  unfold trunc, JS.number_of_Z.
  rewrite (quot_Qeq (Q2Qc (inject_Z z)) (inject_Z z)).
  - simpl. by rewrite Z.quot_1_r.
  - simpl. apply Qred_correct.
Qed.

Ltac qc_lra :=
  unfold Qcle, Qclt, Qcmult, Qcplus, Qcopp, JS.number_of_Z in *; simpl in *;
  rewrite ?Qred_correct in *; unfold inject_Z in *; lra.

Lemma toInt16_in_range (y : JS.number) :
  (JS.number_of_Z (-32768) ≤ y)%Qc → (y ≤ JS.number_of_Z 32767)%Qc →
  toInt16 (finite y) = trunc y.
Proof.
  intros Hlow%trunc_mono Hhigh%trunc_mono.
  rewrite trunc_number_of_Z in Hlow, Hhigh. simpl.
  rewrite Z.mod_small; lia.
Qed.

(** The number [float32ToPCM16] stores for a finite sample: the wrap-around
    of the array does not come into play. *)
Lemma pcm16_finite (x : JS.number) :
  ∃ y : JS.number,
    pcm16 (finite x) = trunc y ∧
    (JS.number_of_Z (-32768) ≤ y)%Qc ∧ (y ≤ JS.number_of_Z 32767)%Qc ∧
    ((x ≤ -1)%Qc → (y ≤ JS.number_of_Z (-32768))%Qc) ∧
    ((1 ≤ x)%Qc → (JS.number_of_Z 32767 ≤ y)%Qc) ∧
    ((x < 0)%Qc → (-1 ≤ x)%Qc → y = (x * JS.number_of_Z 32768)%Qc) ∧
    ((0 ≤ x)%Qc → (x ≤ 1)%Qc → y = (x * JS.number_of_Z 32767)%Qc).
Proof.
  unfold pcm16, min_one.
  destruct (decide (x ≤ 1)%Qc) as [Hhigh | Hhigh]; unfold max_minus_one;
    case_decide as Hlow; unfold negative, times; case_bool_decide as Hsign;
    eexists; (split; [apply toInt16_in_range |]);
    repeat split; try done; try intros; try qc_lra.
Qed.

(** X25: the conversion to 16-bit samples keeps the order of the samples:
    a louder sample of the same sign never becomes a quieter one, and no
    sample changes sign by wrapping around. *)
Theorem pcm16_monotone (x y : JS.number) :
  (x ≤ y)%Qc → pcm16 (finite x) ≤ pcm16 (finite y).
Proof.
  intros Hle.
  destruct (pcm16_finite x) as (x' & -> & Hxlow & Hxhigh & Hx1 & Hx2 & Hx3 & Hx4).
  destruct (pcm16_finite y) as (y' & -> & Hylow & Hyhigh & Hy1 & Hy2 & Hy3 & Hy4).
  apply trunc_mono.
  destruct (decide (x ≤ -1)%Qc) as [Hxa | Hxa].
  { specialize (Hx1 Hxa). clear - Hx1 Hylow. qc_lra. }
  destruct (decide (1 ≤ y)%Qc) as [Hyb | Hyb].
  { specialize (Hy2 Hyb). clear - Hy2 Hxhigh. qc_lra. }
  assert (-1 ≤ x)%Qc as Hxge by (clear - Hxa; qc_lra).
  assert (y ≤ 1)%Qc as Hyle by (clear - Hyb; qc_lra).
  assert (x ≤ 1)%Qc as Hxle by (clear - Hle Hyle; qc_lra).
  assert (-1 ≤ y)%Qc as Hyge by (clear - Hle Hxge; qc_lra).
  destruct (decide (x < 0)%Qc) as [Hxn | Hxn];
    destruct (decide (y < 0)%Qc) as [Hyn | Hyn].
  - rewrite (Hx3 Hxn Hxge), (Hy3 Hyn Hyge). clear - Hle. qc_lra.
  - assert (0 ≤ y)%Qc as Hyp by (clear - Hyn; qc_lra).
    rewrite (Hx3 Hxn Hxge), (Hy4 Hyp Hyle). clear - Hxn Hyp. qc_lra.
  - exfalso. clear - Hle Hxn Hyn. qc_lra.
  - assert (0 ≤ x)%Qc as Hxp by (clear - Hxn; qc_lra).
    assert (0 ≤ y)%Qc as Hyp by (clear - Hyn; qc_lra).
    rewrite (Hx4 Hxp Hxle), (Hy4 Hyp Hyle). clear - Hle. qc_lra.
Qed.

(** X26: the conversion saturates.  A sample at or above 1 becomes 32767
    and a sample at or below -1 becomes -32768, as the infinity of the same
    sign does. *)
Theorem pcm16_saturates (x : JS.number) :
  (1 ≤ x)%Qc ∨ (x ≤ -1)%Qc →
  pcm16 (finite x) = (if decide (x < 0)%Qc then -32768 else 32767) ∧
  pcm16 (finite x) = pcm16 (infinity (bool_decide (x < 0)%Qc)).
Proof.
  intros Hout.
  destruct (pcm16_finite x) as (y & Heq & Hlow & Hhigh & Hneg & Hpos & _).
  apply trunc_mono in Hlow, Hhigh.
  rewrite trunc_number_of_Z in Hlow, Hhigh.
  case_bool_decide as Hsign; destruct (decide (x < 0)%Qc); try done.
  - assert (y ≤ JS.number_of_Z (-32768))%Qc as Hy%trunc_mono
      by (apply Hneg; qc_lra).
    rewrite trunc_number_of_Z in Hy.
    split; [lia |]. rewrite Heq. vm_compute pcm16. lia.
  - assert (JS.number_of_Z 32767 ≤ y)%Qc as Hy%trunc_mono
      by (apply Hpos; qc_lra).
    rewrite trunc_number_of_Z in Hy.
    split; [lia |]. rewrite Heq. vm_compute pcm16. lia.
Qed.

End Capture.

(** * Properties of the hooks *)

Section UserSpeaking.
Import VoiceProvider Hooks.
Context (rt : Runtime).

Lemma reducer_keeps_speaking (c : Clock) (st : VoiceState) (a : VoiceAction) :
  dispatched a → Speaking (messages st) →
  Speaking (messages (voiceReducer c st a)).
Proof.
  intros Ha (msg & c0 & Hin & Huser & Hstr & Hid).
  destruct a; simpl in *; try done; try (by exists msg, c0).
  - exists msg, c0. repeat split; try done.
    apply elem_of_app. by left.
  - destruct (update_streaming_message_cases c (messages st) content0 type0)
      as [-> | (ms0 & m & Hms & _ & _ & ->)].
    + exists msg, c0. repeat split; try done. apply elem_of_app. by left.
    + rewrite Hms in Hin.
      apply elem_of_app in Hin as [Hin | ->%list_elem_of_singleton].
      * exists msg, c0. repeat split; try done. apply elem_of_app. by left.
      * exists (set_content_timestamp m content0 (date c)), c0.
        repeat split; try done.
        apply elem_of_app. right. by apply list_elem_of_singleton.
  - destruct Ha as [e ->].
    exists msg, c0. repeat split; try done.
    unfold finalize_streaming_message. apply list_elem_of_fmap.
    exists msg. split; [| done].
    rewrite Hid.
    destruct (String.eqb_spec (streaming_id c0) (generateMessageId e)) as [Heq |];
      [| done].
    symmetry in Heq. by apply generated_id_not_streaming in Heq.
  - unfold add_emotions_to_latest_user_message.
    destruct (lastUserMessageIndex _) as [i |]; [| by exists msg, c0].
    destruct (messages st !! i) as [m |] eqn:Hm; [| by exists msg, c0].
    apply list_elem_of_lookup in Hin as [k Hk].
    destruct (decide (k = i)) as [-> | Hne].
    + assert (m = msg) as -> by congruence.
      exists (set_metadata msg (with_emotions emotions0 (spread (metadata msg)))), c0.
      repeat split; try done.
      * apply list_elem_of_lookup. exists i.
        apply list_lookup_insert_eq. by eapply lookup_lt_Some.
      * unfold streaming in *. simpl.
        by destruct (metadata msg).
    + exists msg, c0. repeat split; try done.
      apply list_elem_of_lookup. exists k.
      by rewrite list_lookup_insert_ne.
Qed.

Lemma run_keeps_speaking (e : Env) (actions : list VoiceAction) (p : t) :
  Forall dispatched actions → Speaking (messages (state p)) →
  Speaking (messages (state (run e actions p))).
Proof.
  unfold run, dispatch. simpl. generalize (state p). clear p.
  induction actions as [| a actions IH]; intros st Hall Hsp; [done |].
  inversion_clear Hall. simpl. apply IH; [done |].
  by apply reducer_keeps_speaking.
Qed.

Lemma speaking_shown (ms : list VoiceMessage) :
  Speaking ms → isUserSpeaking ms = true ∧ hasStreamingMessages ms = true.
Proof.
  intros (msg & c & Hin & Huser & Hstr & _).
  unfold isUserSpeaking, hasStreamingMessages. split.
  - apply existsb_exists. exists msg. split.
    + apply list_elem_of_In. by apply elem_of_reverse.
    + by rewrite Huser, Hstr.
  - apply existsb_exists. exists msg. split; [| done].
    by apply list_elem_of_In.
Qed.

#[local] Ltac keeps_speaking :=
  repeat first
    [ assumption
    | progress change (state (set_currentStreamingMessageId ?p ?i))
        with (state p)
    | progress change (state (set_audioManagerRef ?p ?a)) with (state p)
    | apply run_keeps_speaking; [by repeat constructor |] ].

Lemma wsEvents_keeps_speaking (seen : VoiceState) (e : Env) (s : Signal) (p : t) :
  Tracked p → Speaking (messages (state p)) →
  Tracked (wsEvents rt seen e s p) ∧
  Speaking (messages (state (wsEvents rt seen e s p))).
Proof.
  intros Htracked Hspeaking.
  destruct s; unfold wsEvents, handle_onStateChange, handle_onTranscription,
    handle_onTTSChunk, handle_onLLMChunk, handle_onEmotion,
    handle_onConnectionMetadata, handle_onError, handle_onInterruption,
    handle_onSystemMessage, handle_onTurnComplete, handle_onIdleWarning;
    repeat case_match; (split; [| keeps_speaking]);
    try done.
  all: try (intros i' Hi'; simpl in Hi'; first [done | by apply Htracked
            | simplify_eq; by eexists ]).
  all: apply run_keeps_speaking; [| keeps_speaking].
  all: repeat constructor; simpl; by apply Htracked.
Qed.

(** X27: once the log holds a streaming user message, the hooks report
    that the user is speaking for good.  No callback of the socket ends the
    streaming of a user message: the final transcript is appended as a new
    message and [FINALIZE_STREAMING_MESSAGE] is only ever dispatched with
    an id that [generateMessageId] made, which no streaming message
    carries.  So [isUserSpeaking] and [hasStreamingMessages] stay true
    through any sequence of callbacks. *)
Theorem user_speaking_sticks (events : list (VoiceState * Env * Signal)) (p : t) :
  Tracked p → Speaking (messages (state p)) →
  isUserSpeaking (messages (state (later rt events p))) = true ∧
  hasStreamingMessages (messages (state (later rt events p))) = true.
Proof.
  intros Htracked Hspeaking. apply speaking_shown.
  revert p Htracked Hspeaking.
  induction events as [| [[seen e] s] events IH]; intros p Htracked Hspeaking;
    [done |].
  simpl.
  destruct (wsEvents_keeps_speaking seen e s p Htracked Hspeaking).
  by apply IH.
Qed.

End UserSpeaking.

(** * From a frame of synthesized audio to the playback queue *)

Section AudioFrames.
Import VoiceProvider TTSPlaybackProcessor Playback.
Context (rt : Runtime).



End AudioFrames.

(** * Instances of the further properties *)

Section FurtherInstances.

Lemma llm_chunks_coalesce_witness :
  let p' := Log.chunks [(Example.env 1, "Hel"); (Example.env 3, "Hello")]
              VoiceProvider.mount in
  ∃ m, messages (VoiceProvider.state p') = [m] ∧ content m = "Hello" ∧
       streaming m = true.
Proof.
  intros p'.
  destruct (llm_chunks_coalesce (Example.env 1, "Hel") [(Example.env 3, "Hello")]
              VoiceProvider.mount) as (m & Hlog & _ & _ & Hstr & Htext & _).
  - reflexivity.
  - intros m Hm. discriminate Hm.
  - exists m. split; [exact Hlog | split; [exact Htext | exact Hstr]].
Defined.

Lemma untrimmed_transcript_never_completes_witness :
  let p1 := VoiceProvider.handle_onTranscription (Example.env 1)
              (Example.transcription true " hi" 0%Qc) VoiceProvider.mount in
  VoiceProvider.handle_onTurnComplete (VoiceProvider.state p1) (Example.env 5)
    (Example.turn " hi") p1 = p1.
Proof.
  intros p1.
  apply (untrimmed_transcript_never_completes (Example.env 1) (Example.env 5)
           (Example.transcription true " hi" 0%Qc) (Example.turn " hi")
           VoiceProvider.mount).
  - reflexivity.
  - reflexivity.
  - intros Heq. vm_compute in Heq. discriminate Heq.
  - reflexivity.
Defined.

Lemma reconnect_skipped_while_connected_witness :
  let r := WebSocketManager.handleClose 1006 "" Example.connected in
  WebSocketManager.connectionState r.1 = ConnectionState.Connected ∧
  WebSocketManager.reconnectTimer (Example.env 7) true r.1 = (r.1, []).
Proof.
  intros r.
  destruct (reconnect_skipped_while_connected (Example.env 7) true 1006 ""
              Example.connected) as (_ & Hstate & _ & Htimer).
  - reflexivity.
  - unfold Observe.abnormal. lia.
  - simpl. lia.
  - discriminate.
  - split; [exact Hstate | exact Htimer].
Defined.

Lemma exhausted_retries_report_each_closure_witness :
  let m := WebSocketManager.set_reconnectAttempts Example.connected 3 in
  let r := Trace.run [Trace.closed 1006 ""; Trace.closed 1011 "restart"] m in
  length (Observe.maxReconnectErrors r.2) = 2%nat ∧ Observe.reconnects r.2 = [].
Proof.
  intros m r.
  destruct (exhausted_retries_report_each_closure
              [(1006, ""); (1011, "restart")] m) as (Herrors & Htimers & _).
  - repeat constructor; simpl; lia.
  - simpl. lia.
  - split; [exact Herrors | exact Htimers].
Defined.

Lemma connect_settles_witness :
  let opened := Lifecycle.run [ Lifecycle.connectCall (Example.env 1) true Example.config;
                                Lifecycle.socketEvent Trace.opened ]
                  WebSocketManager.create in
  WebSocketManager.connectionState opened.1 = ConnectionState.Connected ∧
  WebSocketManager.isConnecting opened.1 = false.
Proof.
  intros opened.
  destruct (connect_settles (Example.env 1) Example.config WebSocketManager.create)
    as (_ & Hstate & Hdone & _).
  - left. reflexivity.
  - reflexivity.
  - split; [exact Hstate | exact Hdone].
Defined.


Lemma queue_well_formed : Playback.WellFormed Example.queue.
Proof.
  unfold Playback.WellFormed. simpl.
  split; [repeat constructor; discriminate | split; [lia | split; [lia | reflexivity]]].
Defined.

Lemma playback_fifo_witness :
  (Playback.process 2 Example.queue).1.2
    = [Playback.play 100; Playback.play (-200)] ∧
  Playback.pending (Playback.process 2 Example.queue).1.1 = [300].
Proof.
  destruct (playback_fifo 2 Example.queue queue_well_formed)
    as (Hout & _ & Hrest & _).
  split; [exact Hout | exact Hrest].
Defined.

Lemma playback_signals_witness :
  (Playback.process 2 (Playback.after [Playback.posted [100; -200; 300]])).2
    = [Playback.playbackStarted].
Proof.
  destruct (playback_signals [Playback.posted [100; -200; 300]] 2)
    as (_ & Hposted & _).
  - repeat constructor. discriminate.
  - exact Hposted.
Defined.

Lemma playback_messages_witness :
  Playback.process 2
    (TTSPlaybackProcessor.onmessage TTSPlaybackProcessor.clear Example.queue)
  = (TTSPlaybackProcessor.create, [Playback.silence; Playback.silence], []).
Proof.
  destruct (playback_messages [7] 2 Example.queue queue_well_formed)
    as (_ & _ & _ & Hclear).
  exact Hclear.
Defined.

Lemma empty_block_blocks_stop_signal_witness :
  let r := Playback.process 4
             (TTSPlaybackProcessor.onmessage (TTSPlaybackProcessor.samples [1; 2])
                (TTSPlaybackProcessor.onmessage (TTSPlaybackProcessor.samples [])
                   TTSPlaybackProcessor.create)) in
  r.1.2 = [None; Playback.play 1; Playback.play 2; Playback.silence] ∧
  Playback.process 4 r.1.1 = (r.1.1, replicate 4 Playback.silence, []).
Proof.
  intros r.
  destruct (empty_block_blocks_stop_signal [1; 2] 4 4 TTSPlaybackProcessor.create)
    as (Hout & _ & Hlater).
  - unfold Playback.WellFormed. simpl.
    split; [constructor | split; [lia | split; reflexivity]].
  - reflexivity.
  - discriminate.
  - simpl. lia.
  - split; [exact Hout | exact Hlater].
Defined.

Lemma capture_chunking_witness :
  let r := PCMCaptureProcessor.process
             [[[PCMCaptureProcessor.finite (Q2Qc (1 # 2)); PCMCaptureProcessor.nan]]]
             PCMCaptureProcessor.create in
  PCMCaptureProcessor.Ready r.1 ∧
  Forall (λ pcmData, length pcmData = PCMCaptureProcessor.chunkSize) r.2.
Proof.
  intros r.
  destruct (capture_chunking
              [[[PCMCaptureProcessor.finite (Q2Qc (1 # 2)); PCMCaptureProcessor.nan]]]
              PCMCaptureProcessor.create) as (Hready & Hsizes & _).
  - split; [apply length_replicate | unfold PCMCaptureProcessor.chunkSize; simpl; lia].
  - split; [exact Hready | exact Hsizes].
Defined.

Lemma pcm16_monotone_witness :
  PCMCaptureProcessor.pcm16 (PCMCaptureProcessor.finite (Q2Qc (-1 # 4)))
  ≤ PCMCaptureProcessor.pcm16 (PCMCaptureProcessor.finite (Q2Qc (1 # 2))).
Proof.
  apply (pcm16_monotone (Q2Qc (-1 # 4)) (Q2Qc (1 # 2))).
  intros Hgt. vm_compute in Hgt. discriminate Hgt.
Defined.

Lemma pcm16_saturates_witness :
  PCMCaptureProcessor.pcm16 (PCMCaptureProcessor.finite (Q2Qc (3 # 2))) = 32767.
Proof.
  destruct (pcm16_saturates (Q2Qc (3 # 2))) as [Hvalue _].
  - left. intros Hgt. vm_compute in Hgt. discriminate Hgt.
  - exact Hvalue.
Defined.

Lemma user_speaking_sticks_witness :
  let p := VoiceProvider.handle_onTranscription (Example.env 1)
             (Example.interim "hello") VoiceProvider.mount in
  let events :=
    [ (initialState, Example.env 3,
       onTranscription (Example.transcription true "hello world" 0%Qc));
      (initialState, Example.env 5, onLLMChunk (Example.chunk false "Hi"));
      (initialState, Example.env 7, onLLMChunk (Example.chunk true "Hi there")) ] in
  Hooks.isUserSpeaking
    (messages (VoiceProvider.state (Hooks.later Example.runtime events p))) = true.
Proof.
  intros p events.
  destruct (user_speaking_sticks Example.runtime events p) as [Hspeaking _].
  - intros i Hi. discriminate Hi.
  - unfold Hooks.Speaking. eexists _, (reducerClock (Example.env 1)).
    split; [apply list_elem_of_singleton; reflexivity |].
    split; [reflexivity | split; reflexivity].
  - exact Hspeaking.
Defined.


End FurtherInstances.
